(** * Notebook 02: BERT embeddings of the project descriptions

    A shallow embedding of the logic of
    [notebooks/02_bert_embedded_descriptions.ipynb]: the selection of one
    description per project (cells 11 and 12), the normalisation of a
    description and the CSV write loop (cell 14), and the validation read
    (cell 18).  The pretrained encoder and the conversions between numbers
    and text are collaborators of the notebook and enter as parameters. *)

From Stdlib Require Import List NArith ZArith Bool String Ascii Lia.
From Stdlib Require Import DecimalPos DecimalZ Sorted.
Import ListNotations.

Local Open Scope N_scope.
Local Open Scope list_scope.

(** ** Python strings

    A Python [str] is a sequence of Unicode code points; a code point is
    a natural number. *)

Definition char := N.
Definition str := list char.

(** [lit "abc"] is the [str] of a literal of the notebook. *)
Definition lit (s : string) : str := map N_of_ascii (list_ascii_of_string s).

Definition period : char := 46.
Definition space : char := 32.
Definition comma : char := 44.
Definition dquote : char := 34.
Definition lbracket : char := 91.
Definition rbracket : char := 93.
Definition CR : char := 13.
Definition LF : char := 10.
Definition minus : char := 45.
Definition plus : char := 43.

Module Py.

(** [ch.isspace()]: the characters [str.strip()] removes when it is called
    without argument. *)
Definition isspace (c : char) : bool :=
  ((9 <=? c) && (c <=? 13)) || ((28 <=? c) && (c <=? 32))
  || (c =? 133) || (c =? 160) || (c =? 5760)
  || ((8192 <=? c) && (c <=? 8202))
  || (c =? 8232) || (c =? 8233) || (c =? 8239) || (c =? 8287) || (c =? 12288).

(** [s.split(sep)] for a separator of one character: never an empty list. *)
Fixpoint split (sep : char) (s : str) : list str :=
  match s with
  | [] => [[]]
  | c :: t =>
      if c =? sep then [] :: split sep t
      else match split sep t with
           | f :: fs => (c :: f) :: fs
           | [] => [[c]]
           end
  end.

Fixpoint lstrip (s : str) : str :=
  match s with
  | c :: t => if isspace c then lstrip t else s
  | [] => []
  end.

Definition rstrip (s : str) : str := rev (lstrip (rev s)).

(** [s.strip()] *)
Definition strip (s : str) : str := rstrip (lstrip s).

(** The white space [float(s)] ignores at the two ends of [s]: that of
    [strip], the separators U+001C to U+001F apart. *)
Definition float_blank (c : char) : bool :=
  isspace c && negb ((28 <=? c) && (c <=? 31)).

Fixpoint lstrip_blank (s : str) : str :=
  match s with
  | c :: t => if float_blank c then lstrip_blank t else s
  | [] => []
  end.

Definition strip_blank (s : str) : str :=
  rev (lstrip_blank (rev (lstrip_blank s))).

(** [sep.join(l)] *)
Fixpoint join (sep : str) (l : list str) : str :=
  match l with
  | [] => []
  | x :: t => match t with [] => x | _ :: _ => x ++ sep ++ join sep t end
  end.

(** [s.replace(c, '')] for a one-character [c]. *)
Definition remove_char (c : char) (s : str) : str :=
  filter (fun x => negb (x =? c)) s.

Definition str_eqb (a b : str) : bool :=
  if list_eq_dec N.eq_dec a b then true else false.

(** [x != ''] *)
Definition nonempty (x : str) : bool :=
  match x with [] => false | _ :: _ => true end.

(** [str(n)] for an integer: decimal digits, with a leading minus sign for a
    negative number. *)
Fixpoint str_of_uint (d : Decimal.uint) : str :=
  match d with
  | Decimal.Nil => []
  | Decimal.D0 d => 48 :: str_of_uint d
  | Decimal.D1 d => 49 :: str_of_uint d
  | Decimal.D2 d => 50 :: str_of_uint d
  | Decimal.D3 d => 51 :: str_of_uint d
  | Decimal.D4 d => 52 :: str_of_uint d
  | Decimal.D5 d => 53 :: str_of_uint d
  | Decimal.D6 d => 54 :: str_of_uint d
  | Decimal.D7 d => 55 :: str_of_uint d
  | Decimal.D8 d => 56 :: str_of_uint d
  | Decimal.D9 d => 57 :: str_of_uint d
  end.

Definition str_of_int (z : Z) : str :=
  match Z.to_int z with
  | Decimal.Pos d => str_of_uint d
  | Decimal.Neg d => minus :: str_of_uint d
  end.

End Py.

(** ** Cell 14, the normalisation of a description

    [row.Description] is a [str], or the float NaN that pandas puts where the
    source table has no description. *)

Inductive description :=
| NaN
| Text (s : str).

(** The [if type(row.Description) == float: ... else: ...] of the loop body;
    the result is the list [desc] handed to the encoder. *)
Definition normalize (d : description) : list str :=
  match d with
  | NaN => [lit "_"]
  | Text s =>
      let desc := map Py.strip (filter Py.nonempty (Py.split period s)) in
      [Py.join (lit " ") desc]
  end.

(** The normaliser as the specification words it: a fragment is dropped when
    it is empty after trimming. *)
Definition normalize_as_specified (d : description) : list str :=
  match d with
  | NaN => [lit "_"]
  | Text s =>
      let desc := filter Py.nonempty (map Py.strip (Py.split period s)) in
      [Py.join (lit " ") desc]
  end.

(** ** The collaborators: numbers and their text

    The notebook renders an embedding with [str(list(emb))], which calls
    numpy's [repr] on every [float32] component, and reads it back with
    Python's [float]; pandas uses its own conversion when it infers the type
    of a column.  None of the three is code of the notebook. *)

Class Numbers := {
  float32 : Type;
  float64 : Type;
  (** [repr(x)] of a component of an embedding *)
  repr : float32 -> str;
  (** [float(s)]; [None] stands for [ValueError] *)
  float_ : str -> option float64;
  (** the conversion [read_csv] tries on a field when it looks for a
      numeric column *)
  pd_float : str -> option float64
}.

(** ** Exceptions and the output file *)

Inductive exn :=
| IndexError
| AttributeError
| ValueError
| ParserError
| EmptyDataError.

Inductive result (A : Type) :=
| Ok (a : A)
| Raise (e : exn).
Arguments Ok {A} a.
Arguments Raise {A} e.

Definition rbind {A B} (r : result A) (k : A -> result B) : result B :=
  match r with
  | Ok a => k a
  | Raise e => Raise e
  end.

Fixpoint rmap {A B} (f : A -> result B) (l : list A) : result (list B) :=
  match l with
  | [] => Ok []
  | x :: t => rbind (f x) (fun y => rbind (rmap f t) (fun ys => Ok (y :: ys)))
  end.

(** A computation of cell 14 runs against the text of [output_file] and may
    raise; what was written before the exception stays in the file. *)
Definition io (A : Type) : Type := str -> result A * str.

Definition ret {A} (a : A) : io A := fun file => (Ok a, file).

Definition bind {A B} (m : io A) (k : A -> io B) : io B :=
  fun file =>
    match m file with
    | (Ok a, file') => k a file'
    | (Raise e, file') => (Raise e, file')
    end.

Definition lift {A} (r : result A) : io A := fun file => (r, file).

Notation "x <- m ;; k" := (bind m (fun x => k))
  (at level 61, m at next level, right associativity).
Notation "m ;; k" := (bind m (fun _ => k))
  (at level 61, right associativity).

(** [open(output_file, 'w', newline='')]: the file is truncated, and what is
    written reaches it untranslated. *)
Definition open_w : io unit := fun _ => (Ok tt, []).

Definition write (s : str) : io unit := fun file => (Ok tt, file ++ s).

Fixpoint for_each {A} (l : list A) (body : A -> io unit) : io unit :=
  match l with
  | [] => ret tt
  | x :: t => body x ;; for_each t body
  end.

(** ** [csv.writer] with its default dialect *)

Module Csv.

(** A value handed to [writerow]: the notebook passes strings and the
    integer [row.PID]. *)
Inductive value :=
| VInt (z : Z)
| VStr (s : str).

Definition to_str (v : value) : str :=
  match v with
  | VInt z => Py.str_of_int z
  | VStr s => s
  end.

(** [QUOTE_MINIMAL]: a field is quoted when it holds the delimiter, the quote
    character or a character of the line terminator. *)
Definition special (c : char) : bool :=
  (c =? comma) || (c =? dquote) || (c =? CR) || (c =? LF).

Definition needs_quotes (f : str) : bool := existsb special f.

Definition quoted (f : str) : str :=
  dquote :: flat_map (fun c => if c =? dquote then [dquote; dquote] else [c]) f
         ++ [dquote].

Definition field (alone : bool) (f : str) : str :=
  if needs_quotes f || (alone && negb (Py.nonempty f)) then quoted f else f.

Definition alone {A} (l : list A) : bool :=
  match l with [_] => true | _ => false end.

(** The text [writerow(values)] appends: the fields joined by the delimiter,
    then the line terminator, carriage return and line feed. *)
Definition row_text (values : list value) : str :=
  Py.join [comma] (map (fun v => field (alone values) (to_str v)) values)
  ++ [CR; LF].

Definition writerow (values : list value) : io unit := write (row_text values).

End Csv.

(** ** Cell 14, the write loop *)

Record project := {
  PID : Z;
  Description : description
}.

Record EmbeddingRecord {num : Numbers} := {
  identifier : Z;
  vector : list float32
}.

Section Cell14.

Context {num : Numbers}.

(** [extract_embeddings(model_path, desc, output_layer_num=4,
    poolings=[POOL_NSP, POOL_MAX])]: one embedding for each text of [desc]. *)
Variable extract_embeddings : list str -> list (list float32).

(** [l[0]] *)
Definition item0 {A} (l : list A) : result A :=
  match l with
  | x :: _ => Ok x
  | [] => Raise IndexError
  end.

(** [str(list(emb))] *)
Definition str_of_list (emb : list float32) : str :=
  [lbracket] ++ Py.join (lit ", ") (map repr emb) ++ [rbracket].

(** [str(list(emb)).replace('[','').replace(']','')] *)
Definition format_embedding (emb : list float32) : str :=
  Py.remove_char rbracket (Py.remove_char lbracket (str_of_list emb)).

(** The last two statements of the loop body, for an embedding [emb]. *)
Definition write_embedding (pid : Z) (emb : list float32) : io unit :=
  let emb := format_embedding emb in
  Csv.writerow [Csv.VInt pid; Csv.VStr emb].

Definition write_header : io unit :=
  Csv.writerow [Csv.VStr (lit "PID"); Csv.VStr (lit "embedding")].

(** The whole cell, for the rows of [projects]. *)
Definition cell_14 (projects : list project) : io unit :=
  open_w ;;
  write_header ;;
  for_each projects (fun row =>
    let desc := normalize (Description row) in
    emb <- lift (item0 (extract_embeddings desc)) ;;
    write_embedding (PID row) emb).

(** The Embedding Writer: the same statements with the embeddings at hand. *)
Definition Writer (records : list EmbeddingRecord) : io unit :=
  open_w ;;
  write_header ;;
  for_each records (fun r => write_embedding (identifier r) (vector r)).

End Cell14.

(** ** pandas *)

Module Pd.

(** *** The tokenizer of [read_csv]

    Default dialect: comma, double quote closed by a doubled quote, lines
    ended by LF, CR or CR LF, blank lines skipped. *)

Inductive state :=
| START_RECORD
| START_FIELD
| IN_FIELD
| IN_QUOTED_FIELD
| QUOTE_IN_QUOTED_FIELD
| EAT_CRNL.

Inductive cclass := Delim | Quote | Cr | Lf | Other.

Definition classify (c : char) : cclass :=
  if c =? comma then Delim
  else if c =? dquote then Quote
  else if c =? CR then Cr
  else if c =? LF then Lf
  else Other.

(** The line under construction holds its fields in reverse, and the field
    under construction its characters in reverse. *)
Definition end_line (fld : str) (line : list str)
    (rest : result (list (list str))) : result (list (list str)) :=
  rbind rest (fun ls => Ok (rev (rev fld :: line) :: ls)).

Fixpoint tokenize (st : state) (fld : str) (line : list str) (input : str)
    : result (list (list str)) :=
  match input with
  | [] =>
      match st with
      | START_RECORD | EAT_CRNL => Ok []
      | IN_QUOTED_FIELD => Raise ParserError
      | START_FIELD | IN_FIELD | QUOTE_IN_QUOTED_FIELD =>
          end_line fld line (Ok [])
      end
  | c :: t =>
      match st, classify c with
      | START_RECORD, Lf => tokenize START_RECORD [] [] t
      | START_RECORD, Cr => tokenize EAT_CRNL [] [] t
      | EAT_CRNL, Lf => tokenize START_RECORD [] [] t
      | EAT_CRNL, Cr => tokenize EAT_CRNL [] [] t
      | (START_RECORD | EAT_CRNL | START_FIELD), Quote =>
          tokenize IN_QUOTED_FIELD [] line t
      | (START_RECORD | EAT_CRNL | START_FIELD), Delim =>
          tokenize START_FIELD [] ([] :: line) t
      | (START_RECORD | EAT_CRNL | START_FIELD), Other =>
          tokenize IN_FIELD [c] line t
      | START_FIELD, Lf => end_line [] line (tokenize START_RECORD [] [] t)
      | START_FIELD, Cr => end_line [] line (tokenize EAT_CRNL [] [] t)
      | IN_FIELD, Delim => tokenize START_FIELD [] (rev fld :: line) t
      | IN_FIELD, Lf => end_line fld line (tokenize START_RECORD [] [] t)
      | IN_FIELD, Cr => end_line fld line (tokenize EAT_CRNL [] [] t)
      | IN_FIELD, (Quote | Other) => tokenize IN_FIELD (c :: fld) line t
      | IN_QUOTED_FIELD, Quote => tokenize QUOTE_IN_QUOTED_FIELD fld line t
      | IN_QUOTED_FIELD, _ => tokenize IN_QUOTED_FIELD (c :: fld) line t
      | QUOTE_IN_QUOTED_FIELD, Quote =>
          tokenize IN_QUOTED_FIELD (c :: fld) line t
      | QUOTE_IN_QUOTED_FIELD, Delim =>
          tokenize START_FIELD [] (rev fld :: line) t
      | QUOTE_IN_QUOTED_FIELD, Lf =>
          end_line fld line (tokenize START_RECORD [] [] t)
      | QUOTE_IN_QUOTED_FIELD, Cr =>
          end_line fld line (tokenize EAT_CRNL [] [] t)
      | QUOTE_IN_QUOTED_FIELD, Other => tokenize IN_FIELD (c :: fld) line t
      end
  end.

(** *** Type inference of a column *)

(** The strings [read_csv] takes for a missing value. *)
Definition na_values : list str :=
  map lit [""; "#N/A"; "#N/A N/A"; "#NA"; "-1.#IND"; "-1.#QNAN"; "-NaN";
           "-nan"; "1.#IND"; "1.#QNAN"; "<NA>"; "N/A"; "NA"; "NULL"; "NaN";
           "n/a"; "nan"; "null"]%string.

Definition is_na (f : str) : bool := existsb (Py.str_eqb f) na_values.

Fixpoint uint_of_str (s : str) : option Decimal.uint :=
  match s with
  | [] => Some Decimal.Nil
  | c :: t =>
      match uint_of_str t with
      | None => None
      | Some d =>
          match c with
          | 48 => Some (Decimal.D0 d)
          | 49 => Some (Decimal.D1 d)
          | 50 => Some (Decimal.D2 d)
          | 51 => Some (Decimal.D3 d)
          | 52 => Some (Decimal.D4 d)
          | 53 => Some (Decimal.D5 d)
          | 54 => Some (Decimal.D6 d)
          | 55 => Some (Decimal.D7 d)
          | 56 => Some (Decimal.D8 d)
          | 57 => Some (Decimal.D9 d)
          | _ => None
          end
      end
  end.

Definition int64 (z : Z) : Prop := (- 2 ^ 63 <= z < 2 ^ 63)%Z.

Definition in_int64 (z : Z) : bool :=
  ((- 2 ^ 63 <=? z) && (z <? 2 ^ 63))%Z.

Definition in_uint64 (z : Z) : bool :=
  ((0 <=? z) && (z <? 2 ^ 64))%Z.

(** The blanks the integer conversion skips at the two ends of a field. *)
Definition blank (c : char) : bool :=
  (c =? space) || ((9 <=? c) && (c <=? 13)).

Fixpoint skip_blanks (s : str) : str :=
  match s with
  | c :: t => if blank c then skip_blanks t else s
  | [] => []
  end.

Definition trim (s : str) : str := rev (skip_blanks (rev (skip_blanks s))).

(** A field is an integer when, blanks at its ends apart, it is a sign and
    digits, or digits. *)
Definition parse_int (f : str) : option Z :=
  let digits (neg : bool) (s : str) :=
    match s with
    | [] => None
    | _ :: _ =>
        match uint_of_str s with
        | None => None
        | Some d => Some (Z.of_int (if neg then Decimal.Neg d else Decimal.Pos d))
        end
    end in
  match trim f with
  | c :: t =>
      if c =? minus then digits true t
      else if c =? plus then digits false t
      else digits false (c :: t)
  | [] => None
  end.

(** The integers of an [int64] column, and those of a [uint64] column. *)
Definition parse_int64 (f : str) : option Z :=
  match parse_int f with
  | Some z => if in_int64 z then Some z else None
  | None => None
  end.

Definition parse_uint64 (f : str) : option Z :=
  match parse_int f with
  | Some z => if in_uint64 z then Some z else None
  | None => None
  end.

Fixpoint all_some {A} (l : list (option A)) : option (list A) :=
  match l with
  | [] => Some []
  | Some a :: t => option_map (cons a) (all_some t)
  | None :: _ => None
  end.

End Pd.

Section Frames.

Context {num : Numbers}.

(** A value of a frame read from a file, or put there by cell 18. *)
Inductive cell :=
| CInt (z : Z)
| CFloat (x : float64)
| CNaN
| CStr (s : str)
| CList (l : list float64).

Record DataFrame := {
  columns : list str;
  rows : list (list cell)
}.

(** An integer column when every field is an integer of 64 bits, signed or
    else unsigned; else a float column when every field is a number or a
    missing value; else the strings themselves, NaN where the value is
    missing. Columns of booleans are not modelled. *)
Definition infer_column (fields : list str) : list cell :=
  match Pd.all_some (map Pd.parse_int64 fields) with
  | Some zs => map CInt zs
  | None =>
      match Pd.all_some (map Pd.parse_uint64 fields) with
      | Some zs => map CInt zs
      | None =>
          let numeric (f : str) :=
            if Pd.is_na f then Some CNaN else option_map CFloat (pd_float f) in
          match Pd.all_some (map numeric fields) with
          | Some cs => cs
          | None => map (fun f => if Pd.is_na f then CNaN else CStr f) fields
          end
      end
  end.

(** [pd.read_csv(path)] on the text of the file. The first line names the
    columns. The width of the table is that of the header, or that of the
    first data line when it is longer: its surplus fields, the leading ones,
    then make the index of the frame and are no column. A later line with
    more fields than the width is an error, one with fewer is completed with
    missing values. The frame is given by its columns and rows, without its
    index; names that repeat or are empty are kept as they are. *)
Definition read_csv (content : str) : result DataFrame :=
  rbind (Pd.tokenize Pd.START_RECORD [] [] content) (fun lines =>
    match lines with
    | [] => Raise EmptyDataError
    | header :: data =>
        let n := List.length header in
        let width :=
          match data with
          | [] => n
          | first :: _ => Nat.max n (List.length first)
          end in
        if existsb (fun l => (width <? List.length l)%nat) data
        then Raise ParserError
        else
          let leading := (width - n)%nat in
          let cols :=
            map (fun j =>
                   infer_column (map (fun l => nth (leading + j) l []) data))
                (seq 0 n) in
          Ok {| columns := header;
                rows := map (fun i => map (fun col => nth i col CNaN) cols)
                            (seq 0 (List.length data)) |}
    end).

(** [s.name] for a row [s] of a frame with the given columns. *)
Fixpoint getattr (cols : list str) (s : list cell) (name : str) : result cell :=
  match cols, s with
  | c :: cols', v :: s' =>
      if Py.str_eqb c name then Ok v else getattr cols' s' name
  | _, _ => Raise AttributeError
  end.

(** [df[name] = values]: the column is replaced, or added when the frame has
    none of that name. *)
Fixpoint set_in_row (cols : list str) (s : list cell) (name : str) (v : cell)
    : list cell :=
  match cols, s with
  | c :: cols', x :: s' =>
      if Py.str_eqb c name then v :: s' else x :: set_in_row cols' s' name v
  | _, _ => [v]
  end.

Definition setitem (df : DataFrame) (name : str) (values : list cell)
    : DataFrame :=
  {| columns := if existsb (Py.str_eqb name) (columns df) then columns df
                else columns df ++ [name];
     rows := map (fun sv => set_in_row (columns df) (fst sv) name (snd sv))
                 (combine (rows df) values) |}.

(** ** Cell 18, the validation read *)

Definition convert (cols : list str) (s : list cell) : result (list float64) :=
  rbind (getattr cols s (lit "embedding")) (fun e =>
    match e with
    | CStr x =>
        rmap (fun x => match float_ x with
                       | Some y => Ok y
                       | None => Raise ValueError
                       end)
             (Py.split comma x)
    | _ => Raise AttributeError
    end).

(** [embedding.apply(convert, axis=1)]: on a frame with rows, [convert] is
    called on the rows in order and the lists it returns make a series; on a
    frame without rows nothing is converted and [apply] gives back a frame
    with the columns of [embedding]. *)
Inductive applied :=
| Series (lists : list (list float64))
| Frame (cols : list str).

Definition apply_convert (embedding : DataFrame) : result applied :=
  match rows embedding with
  | [] => Ok (Frame (columns embedding))
  | _ :: _ =>
      rbind (rmap (convert (columns embedding)) (rows embedding))
            (fun lists => Ok (Series lists))
  end.

(** [embedding['embedding'] = value]: a series becomes the column; a frame
    does so when it has one column, and is refused with [ValueError] when it
    has several. *)
Definition cell_18 (output_file : str) : result DataFrame :=
  rbind (read_csv output_file) (fun embedding =>
    rbind (apply_convert embedding) (fun value =>
      match value with
      | Series lists =>
          Ok (setitem embedding (lit "embedding") (map CList lists))
      | Frame [_] => Ok (setitem embedding (lit "embedding") [])
      | Frame _ => Raise ValueError
      end)).

(** The Embedding Reader: what cell 18 leaves in [embedding], for the file
    that a run of the writer leaves behind. *)
Definition Reader (written : result unit * str) : result DataFrame :=
  cell_18 (snd written).

End Frames.

(** ** Cells 11 and 12, the selection of the descriptions

    A frame or a series is the list of its rows, each with its index label. *)

Definition indexed (A : Type) : Type := list (nat * A).

(** The index [read_csv] gives a frame: the rows numbered from 0. *)
Definition range_index {A} (l : list A) : indexed A :=
  combine (seq 0 (List.length l)) l.

Definition description_eqb (a b : description) : bool :=
  match a, b with
  | NaN, NaN => true
  | Text s, Text t => Py.str_eqb s t
  | _, _ => false
  end.

Definition project_eqb (a b : project) : bool :=
  (PID a =? PID b)%Z && description_eqb (Description a) (Description b).

(** [drop_duplicates()]: a row equal to an earlier one is dropped (two missing
    values count as equal); the rows that stay keep their labels. *)
Fixpoint drop_duplicates_from {A} (eqb : A -> A -> bool) (seen : list A)
    (s : indexed A) : indexed A :=
  match s with
  | [] => []
  | (i, x) :: t =>
      if existsb (eqb x) seen then drop_duplicates_from eqb seen t
      else (i, x) :: drop_duplicates_from eqb (x :: seen) t
  end.

Definition drop_duplicates {A} (eqb : A -> A -> bool) (s : indexed A)
    : indexed A :=
  drop_duplicates_from eqb [] s.

(** [s.index] *)
Definition index {A} (s : indexed A) : list nat := map fst s.

(** [df['PID']] *)
Definition PID_column (df : indexed project) : indexed Z :=
  map (fun r => (fst r, PID (snd r))) df.

(** [df.loc[labels]]: for each label in turn, the rows that carry it. *)
Definition loc {A} (df : indexed A) (labels : list nat) : indexed A :=
  flat_map (fun l => filter (fun r => (fst r =? l)%nat) df) labels.

(** [data[['PID', 'Description']].drop_duplicates()] *)
Definition cell_11 (data : indexed project) : indexed project :=
  drop_duplicates project_eqb data.

Definition cell_12 (all_descriptions : indexed project) : indexed project :=
  let pid_only_index := index (drop_duplicates Z.eqb (PID_column all_descriptions)) in
  loc all_descriptions pid_only_index.

(** The Description Selector: the rows [projects.itertuples()] yields for the
    records of the source table. *)
Definition Selector (records : list project) : list project :=
  map snd (cell_12 (cell_11 (range_index records))).

(** The run from the records of the source table to the output file. *)
Definition pipeline {num : Numbers}
    (extract_embeddings : list str -> list (list float32))
    (records : list project) : io unit :=
  cell_14 extract_embeddings (Selector records).

(** ** The numbers of the scenarios

    The three values the specification's scenarios use, with the text numpy
    gives them. *)

Inductive sample := tenth | minus_two_and_a_half | one.

Definition sample_repr (x : sample) : str :=
  match x with
  | tenth => lit "0.1"
  | minus_two_and_a_half => lit "-2.5"
  | one => lit "1.0"
  end.

Definition sample_of_str (s : str) : option sample :=
  if Py.str_eqb s (lit "0.1") then Some tenth
  else if Py.str_eqb s (lit "-2.5") then Some minus_two_and_a_half
  else if Py.str_eqb s (lit "1.0") then Some one
  else None.

#[local] Instance sample_numbers : Numbers := {|
  float32 := sample;
  float64 := sample;
  repr := sample_repr;
  float_ := fun s => sample_of_str (Py.strip_blank s);
  pd_float := sample_of_str
|}.

Definition scenario_records : list (@EmbeddingRecord sample_numbers) :=
  [ {| identifier := 3; vector := [tenth; minus_two_and_a_half] |};
    {| identifier := 7; vector := [one] |} ].

(** Records with vectors of two components and more, of one component, and
    without component. *)
Definition long_records : list (@EmbeddingRecord sample_numbers) :=
  [ {| identifier := 3; vector := [tenth; minus_two_and_a_half] |};
    {| identifier := 7; vector := [one; tenth; one] |} ].

Definition one_component : list (@EmbeddingRecord sample_numbers) :=
  [ {| identifier := 7; vector := [one] |} ].

Definition no_component : list (@EmbeddingRecord sample_numbers) :=
  [ {| identifier := 7; vector := [] |} ].

(** ** Notions the statements use *)

(** The elements of [l] whose key was not seen before, in the order of [l]. *)
Fixpoint keep_first {A K} (key : A -> K) (eqb : K -> K -> bool)
    (seen : list K) (l : list A) : list A :=
  match l with
  | [] => []
  | x :: t =>
      if existsb (eqb (key x)) seen then keep_first key eqb seen t
      else x :: keep_first key eqb (key x :: seen) t
  end.

(** The position in [l] of the first record of identifier [pid]. *)
Fixpoint position (pid : Z) (l : list project) : nat :=
  match l with
  | [] => 0
  | r :: t => if (PID r =? pid)%Z then 0 else S (position pid t)
  end.

(** The characters of the text numpy 1.x gives a float: digits, sign, point,
    exponent mark, and the letters of [inf] and [nan]. *)
Definition numeric_char (c : char) : bool :=
  existsb (N.eqb c) (lit "0123456789+-.einfa").

Definition numeric_text (s : str) : Prop :=
  s <> [] /\ Forall (fun c => numeric_char c = true) s.

(** The header line of the output file. *)
Definition header_text : str := lit "PID,embedding" ++ [CR; LF].

(** The embedding field of a line of the output file: the components
    separated by a comma and a space, between double quotes when there are
    two components or more. *)
Definition embedding_field {num : Numbers} (v : list float32) : str :=
  match v with
  | [] | [_] => Py.join (lit ", ") (map repr v)
  | _ :: _ :: _ => [dquote] ++ Py.join (lit ", ") (map repr v) ++ [dquote]
  end.

(** The two fields [read_csv] finds on the line of a record. *)
Definition identifier_text {num : Numbers} (r : EmbeddingRecord) : str :=
  Py.str_of_int (identifier r).

Definition vector_text {num : Numbers} (r : EmbeddingRecord) : str :=
  Py.join (lit ", ") (map repr (vector r)).

Definition record_line {num : Numbers} (r : EmbeddingRecord) : str :=
  Py.str_of_int (identifier r) ++ [comma] ++ embedding_field (vector r)
  ++ [CR; LF].

(** The record cell 14 writes for a row of [projects]: its identifier, and
    the first embedding the encoder returns for its normalised description. *)
Definition embedded {num : Numbers}
    (extract_embeddings : list str -> list (list float32)) (row : project)
    : EmbeddingRecord :=
  {| identifier := PID row;
     vector := hd [] (extract_embeddings (normalize (Description row))) |}.

(** * Properties *)

(** ** Strings *)

Lemma split_not_nil (sep : char) (s : str) : Py.split sep s <> [].
Proof.
  destruct s as [|c t]; simpl; [discriminate|].
  destruct (c =? sep); [discriminate|].
  destruct (Py.split sep t); discriminate.
Qed.

Lemma split_cons (sep c : char) (t : str) :
  Py.split sep (c :: t) =
  if c =? sep then [] :: Py.split sep t
  else (c :: hd [] (Py.split sep t)) :: tl (Py.split sep t).
Proof.
  simpl. destruct (c =? sep); [reflexivity|].
  pose proof (split_not_nil sep t) as Hn.
  destruct (Py.split sep t); [contradiction | reflexivity].
Qed.

Lemma join_cons2 (sep x y : str) (l : list str) :
  Py.join sep (x :: y :: l) = x ++ sep ++ Py.join sep (y :: l).
Proof. reflexivity. Qed.

Lemma join_split (sep : char) (s : str) : Py.join [sep] (Py.split sep s) = s.
Proof.
  induction s as [|c t IH]; [reflexivity|].
  rewrite split_cons.
  pose proof (split_not_nil sep t) as Hn.
  destruct (Py.split sep t) as [|f fs]; [contradiction|].
  destruct (N.eqb_spec c sep) as [->|Hc].
  - rewrite join_cons2, IH. reflexivity.
  - simpl hd; simpl tl. destruct fs as [|g fs].
    + simpl in *. now rewrite IH.
    + rewrite join_cons2 in *. simpl. now rewrite <- IH.
Qed.

Lemma split_no_sep (sep : char) (s : str) :
  Forall (fun f => ~ In sep f) (Py.split sep s).
Proof.
  induction s as [|c t IH]; [repeat constructor; auto|].
  rewrite split_cons.
  destruct (N.eqb_spec c sep) as [->|Hc].
  - constructor; auto.
  - destruct (Py.split sep t) as [|f fs]; simpl.
    + repeat constructor. intros [H|[]]. now apply Hc.
    + inversion IH; subst. constructor; auto.
      intros [H|H]; [now apply Hc | auto].
Qed.

Lemma split_covers (sep c : char) (s : str) :
  In c s -> c <> sep -> exists f, In f (Py.split sep s) /\ In c f.
Proof.
  induction s as [|a t IH]; [intros []|].
  intros Hin Hc. rewrite split_cons.
  destruct (N.eqb_spec a sep) as [->|Ha].
  - destruct Hin as [->|Hin]; [contradiction|].
    destruct (IH Hin Hc) as (f & Hf & Hcf). exists f. split; [now right | assumption].
  - pose proof (split_not_nil sep t) as Hn.
    destruct (Py.split sep t) as [|f fs]; [contradiction|]. simpl hd; simpl tl.
    destruct Hin as [->|Hin].
    + exists (c :: f). split; now left.
    + destruct (IH Hin Hc) as (g & [<-|Hg] & Hcg).
      * exists (a :: f). split; [now left | now right].
      * exists g. split; [now right | assumption].
Qed.

Lemma split_all_sep (sep : char) (s : str) :
  Forall (eq sep) s -> filter Py.nonempty (Py.split sep s) = [].
Proof.
  induction 1 as [|c t <- _ IH]; [reflexivity|].
  rewrite split_cons, N.eqb_refl. assumption.
Qed.

Lemma lstrip_suffix (s : str) :
  exists l, s = l ++ Py.lstrip s /\ Forall (fun c => Py.isspace c = true) l.
Proof.
  induction s as [|c t (l & Hl & Hs)]; [now exists []|].
  simpl. destruct (Py.isspace c) eqn:E.
  - exists (c :: l). split; [simpl; now f_equal | now constructor].
  - now exists [].
Qed.

Lemma lstrip_head (s : str) :
  match Py.lstrip s with
  | c :: _ => Py.isspace c = false
  | [] => True
  end.
Proof.
  induction s as [|c t IH]; simpl; [exact I|].
  destruct (Py.isspace c) eqn:E; [exact IH | exact E].
Qed.

(** [strip] removes a run of white space at each end and nothing else, and
    what is left neither starts nor ends with white space. *)
Lemma strip_spec (s : str) :
  exists l r,
    s = l ++ Py.strip s ++ r
    /\ Forall (fun c => Py.isspace c = true) l
    /\ Forall (fun c => Py.isspace c = true) r
    /\ match Py.strip s with c :: _ => Py.isspace c = false | [] => True end
    /\ match rev (Py.strip s) with c :: _ => Py.isspace c = false | [] => True end.
Proof.
  unfold Py.strip, Py.rstrip.
  destruct (lstrip_suffix s) as (l & Hl & Hls).
  destruct (lstrip_suffix (rev (Py.lstrip s))) as (r & Hr & Hrs).
  exists l, (rev r). repeat split.
  - rewrite <- rev_app_distr, <- Hr, rev_involutive. exact Hl.
  - exact Hls.
  - apply Forall_rev. exact Hrs.
  - pose proof (lstrip_head s) as Hh.
    pose proof (lstrip_head (rev (Py.lstrip s))) as Hh'.
    set (m := Py.lstrip s) in *.
    set (k := Py.lstrip (rev m)) in *.
    destruct (rev k) as [|c u] eqn:Ek; [exact I|].
    assert (Hm : m = (c :: u) ++ rev r).
    { rewrite <- Ek, <- rev_app_distr, <- Hr. now rewrite rev_involutive. }
    rewrite Hm in Hh. exact Hh.
  - rewrite rev_involutive. apply lstrip_head.
Qed.

Lemma strip_incl (s : str) (c : char) : In c (Py.strip s) -> In c s.
Proof.
  destruct (strip_spec s) as (l & r & Hs & _). intros H.
  rewrite Hs. apply in_or_app. right. apply in_or_app. now left.
Qed.

Lemma strip_keeps (s : str) (c : char) :
  In c s -> Py.isspace c = false -> In c (Py.strip s).
Proof.
  destruct (strip_spec s) as (l & r & Hs & Hl & Hr & _). intros Hin Hc.
  rewrite Hs in Hin.
  apply in_app_or in Hin as [Hin|Hin];
    [|apply in_app_or in Hin as [Hin|Hin]; [assumption|]].
  - rewrite Forall_forall in Hl. rewrite (Hl _ Hin) in Hc. discriminate.
  - rewrite Forall_forall in Hr. rewrite (Hr _ Hin) in Hc. discriminate.
Qed.

Lemma strip_fixed (s : str) :
  match s with c :: _ => Py.isspace c = false | [] => True end ->
  match rev s with c :: _ => Py.isspace c = false | [] => True end ->
  Py.strip s = s.
Proof.
  intros Hh Hl. unfold Py.strip, Py.rstrip.
  assert (E : Py.lstrip s = s).
  { destruct s as [|c t]; [reflexivity|]. simpl. now rewrite Hh. }
  rewrite E.
  assert (E' : Py.lstrip (rev s) = rev s).
  { destruct (rev s) as [|c t]; [reflexivity|]. simpl. now rewrite Hl. }
  rewrite E'. apply rev_involutive.
Qed.

Lemma join_chars (sep : str) (l : list str) (c : char) :
  In c (Py.join sep l) -> In c sep \/ exists x, In x l /\ In c x.
Proof.
  induction l as [|x t IH]; [intros []|].
  destruct t as [|y t].
  - simpl. intros H. right. exists x. auto.
  - rewrite join_cons2. intros H.
    apply in_app_or in H as [H|H]; [right; exists x; simpl; auto|].
    apply in_app_or in H as [H|H]; [now left|].
    destruct (IH H) as [H'|(z & Hz & Hc)]; [now left|].
    right. exists z. split; [now right | assumption].
Qed.

Lemma join_not_empty (sep : str) (l : list str) (x : str) :
  In x l -> x <> [] -> Py.join sep l <> [].
Proof.
  induction l as [|y t IH]; [intros []|].
  intros Hin Hx. destruct t as [|z t].
  - destruct Hin as [->|[]]. exact Hx.
  - rewrite join_cons2. destruct Hin as [->|Hin].
    + destruct x; [contradiction | discriminate].
    + intros E. apply app_eq_nil in E as [_ E]. apply app_eq_nil in E as [_ E].
      exact (IH Hin Hx E).
Qed.

Lemma filter_map_nonempty (f : str -> str) (l : list str) :
  Forall (fun x => x = [] \/ f x <> []) l ->
  (forall x, f x <> [] -> x <> []) ->
  map f (filter Py.nonempty l) = filter Py.nonempty (map f l).
Proof.
  intros H Hf. induction H as [|x t Hx _ IH]; [reflexivity|].
  simpl. destruct x as [|c x'].
  - simpl. destruct (f []) eqn:E; [exact IH|].
    exfalso. apply (Hf []); [rewrite E; discriminate | reflexivity].
  - simpl. destruct Hx as [Hx|Hx]; [discriminate|].
    destruct (f (c :: x')); [contradiction|]. simpl. now f_equal.
Qed.

(** ** The normaliser *)

(** C7. A missing description normalises to the one-character text [_], and
    the two-sentence description of the scenario to its sentences without
    their periods, joined by one space. *)
Theorem normalize_scenarios :
  normalize NaN = [lit "_"]
  /\ List.length (lit "_") = 1%nat
  /\ normalize (Text (lit "Replace aging boiler system. Includes HVAC upgrade."))
     = [lit "Replace aging boiler system Includes HVAC upgrade"].
Proof. repeat split. Qed.

(** C5. The normaliser is total: for a missing description and for any text
    it returns a list [desc] of exactly one unit. *)
Theorem normalize_total (d : description) :
  (exists u, normalize d = [u]) /\ List.length (normalize d) = 1%nat.
Proof. destruct d; simpl; eauto. Qed.

(** C9. The normalised text of a description that is not missing holds no
    period. *)
Theorem normalize_no_period (s : str) :
  Forall (fun u => ~ In period u) (normalize (Text s)).
Proof.
  simpl. constructor; [|constructor].
  intros H. apply join_chars in H as [H|(x & Hx & Hc)].
  - destruct H as [H|[]]. discriminate H.
  - apply in_map_iff in Hx as (f & <- & Hf).
    apply filter_In in Hf as [Hf _]. apply strip_incl in Hc.
    pose proof (split_no_sep period s) as Hs.
    rewrite Forall_forall in Hs. exact (Hs _ Hf Hc).
Qed.

(** C4, as the code has it. The fragments of a text are what lies between
    its periods. The normaliser drops the fragments that are the empty
    string, trims the others (one made of white space stays, as an empty
    string) and joins them with one space; without a fragment left the text
    is empty. It is what the specification words whenever no fragment
    consists of white space only. *)
Theorem normalize_text (s : str) :
  let frags := Py.split period s in
  Py.join [period] frags = s
  /\ Forall (fun f => ~ In period f) frags
  /\ normalize (Text s)
     = [Py.join [space] (map Py.strip (filter Py.nonempty frags))]
  /\ (filter Py.nonempty frags = [] -> normalize (Text s) = [[]])
  /\ (Forall (fun f => f = [] \/ Py.strip f <> []) frags ->
      normalize (Text s) = normalize_as_specified (Text s)).
Proof.
  intros frags. subst frags. repeat split.
  - apply join_split.
  - apply split_no_sep.
  - simpl. intros ->. reflexivity.
  - intros H. simpl. rewrite filter_map_nonempty; auto.
    intros x Hx ->. now apply Hx.
Qed.

Lemma normalize_text_witness :
  normalize (Text (lit "...")) = [[]]
  /\ normalize (Text (lit "a. b")) = normalize_as_specified (Text (lit "a. b")).
Proof.
  split.
  - destruct (normalize_text (lit "...")) as (_ & _ & _ & He & _).
    apply He. reflexivity.
  - destruct (normalize_text (lit "a. b")) as (_ & _ & _ & _ & Hs).
    apply Hs. change (Py.split period (lit "a. b")) with [lit "a"; lit " b"].
    constructor; [right; vm_compute; discriminate|].
    constructor; [right; vm_compute; discriminate|]. constructor.
Defined.

(** C4, as the specification words it, fails on a description that ends in a
    period and a space: the fragment after the period is not the empty string
    and stays, so that the text ends in the separator. *)
Lemma normalize_not_as_specified :
  normalize (Text (lit "Replace boiler. ")) = [lit "Replace boiler "]
  /\ normalize_as_specified (Text (lit "Replace boiler. ")) = [lit "Replace boiler"]
  /\ normalize (Text (lit "Replace boiler. "))
     <> normalize_as_specified (Text (lit "Replace boiler. ")).
Proof. repeat split. discriminate. Qed.

(** C6, as the code has it. The normalised text is not empty when the
    description is missing, and when it is a text with some character that is
    neither a period nor white space; it is the empty string when the
    description holds nothing but periods. *)
Theorem normalize_not_empty :
  (forall d,
     d = NaN
     \/ (exists s c, d = Text s /\ In c s /\ c <> period /\ Py.isspace c = false) ->
     Forall (fun u => u <> []) (normalize d))
  /\ (forall s, Forall (eq period) s -> normalize (Text s) = [[]]).
Proof.
  split.
  - intros d [->|(s & c & -> & Hin & Hp & Hw)].
    + repeat constructor. discriminate.
    + simpl. constructor; [|constructor].
      destruct (split_covers period c s Hin Hp) as (f & Hf & Hcf).
      apply join_not_empty with (x := Py.strip f).
      * apply in_map. apply filter_In. split; [assumption|].
        destruct f; [destruct Hcf | reflexivity].
      * intros E. pose proof (strip_keeps f c Hcf Hw) as Hk.
        rewrite E in Hk. destruct Hk.
  - intros s H. simpl. now rewrite split_all_sep.
Qed.

Lemma normalize_not_empty_witness :
  Forall (fun u => u <> []) (normalize NaN)
  /\ Forall (fun u => u <> []) (normalize (Text (lit "Replace boiler. ")))
  /\ normalize (Text (lit "..")) = [[]].
Proof.
  split; [|split].
  - apply (proj1 normalize_not_empty). left. reflexivity.
  - apply (proj1 normalize_not_empty). right.
    exists (lit "Replace boiler. "), 82. repeat split.
    + left. reflexivity.
    + discriminate.
  - apply (proj2 normalize_not_empty). repeat constructor.
Defined.

(** C6, as the specification words it, fails on a description made of
    periods: no fragment survives and the normalised text is the empty
    string. *)
Lemma normalize_empty_text :
  normalize (Text (lit "...")) = [[]]
  /\ ~ Forall (fun u => u <> []) (normalize (Text (lit "..."))).
Proof.
  split; [reflexivity|].
  intros H. inversion H; subst. auto.
Qed.

(** ** The selection *)

Section KeepFirst.

Context {A K : Type} (key : A -> K) (eqb : K -> K -> bool).
Hypothesis eqb_spec : forall a b, eqb a b = true <-> a = b.

Lemma existsb_eqb (k : K) (seen : list K) :
  existsb (eqb k) seen = true <-> In k seen.
Proof.
  rewrite existsb_exists. split.
  - intros (y & Hy & E). apply eqb_spec in E. now subst.
  - intros H. exists k. split; [assumption | now apply eqb_spec].
Qed.

Lemma keep_first_incl (seen : list K) (l : list A) (x : A) :
  In x (keep_first key eqb seen l) -> In x l /\ ~ In (key x) seen.
Proof.
  revert seen. induction l as [|y t IH]; intros seen; [intros []|].
  simpl. destruct (existsb (eqb (key y)) seen) eqn:E.
  - intros H. destruct (IH _ H). auto.
  - intros [->|H].
    + split; [now left|]. intros Hin. apply existsb_eqb in Hin. congruence.
    + destruct (IH _ H) as [H1 H2]. split; [now right|].
      intros Hin. apply H2. now right.
Qed.

Lemma keep_first_keys (seen : list K) (l : list A) (k : K) :
  In k (map key (keep_first key eqb seen l))
  <-> In k (map key l) /\ ~ In k seen.
Proof.
  revert seen. induction l as [|y t IH]; intros seen; [simpl; tauto|].
  simpl. destruct (existsb (eqb (key y)) seen) eqn:E.
  - rewrite IH. apply existsb_eqb in E. split.
    + intros [H1 H2]. auto.
    + intros [[<-|H1] H2]; [contradiction | auto].
  - assert (Hn : ~ In (key y) seen).
    { intros H. apply existsb_eqb in H. congruence. }
    simpl. rewrite IH. simpl. split.
    + intros [<-|[H1 H2]]; [auto|]. split; [auto|]. intros H. apply H2. now right.
    + intros [[<-|H1] H2]; [now left|].
      destruct (eqb (key y) k) eqn:E'.
      * apply eqb_spec in E'. now left.
      * right. split; [assumption|]. intros [Hk|H]; [|contradiction].
        apply eqb_spec in Hk. congruence.
Qed.

Lemma keep_first_NoDup (seen : list K) (l : list A) :
  NoDup (map key (keep_first key eqb seen l)).
Proof.
  revert seen. induction l as [|y t IH]; intros seen; [constructor|].
  simpl. destruct (existsb (eqb (key y)) seen); [apply IH|].
  simpl. constructor; [|apply IH].
  intros H. apply keep_first_keys in H as [_ H]. apply H. now left.
Qed.

End KeepFirst.

Lemma str_eqb_spec (a b : str) : Py.str_eqb a b = true <-> a = b.
Proof.
  unfold Py.str_eqb. destruct (list_eq_dec N.eq_dec a b); split;
    congruence.
Qed.

Lemma project_eqb_spec (a b : project) : project_eqb a b = true <-> a = b.
Proof.
  destruct a as [p d], b as [q e]. unfold project_eqb. simpl.
  rewrite andb_true_iff, Z.eqb_eq. split.
  - intros [-> H]. f_equal. destruct d, e; simpl in H; try discriminate;
      [reflexivity | apply str_eqb_spec in H; now subst].
  - intros E. injection E as -> ->. split; [reflexivity|].
    destruct e; simpl; [reflexivity | now apply str_eqb_spec].
Qed.

Lemma drop_duplicates_keep_first {A} (eqb : A -> A -> bool) (seen : list A)
    (s : indexed A) :
  drop_duplicates_from eqb seen s = keep_first snd eqb seen s.
Proof.
  revert seen. induction s as [|[i x] t IH]; intros seen; [reflexivity|].
  simpl. destruct (existsb (eqb x) seen); now rewrite IH.
Qed.

Lemma keep_first_map {A B K} (f : A -> B) (key : B -> K) (eqb : K -> K -> bool)
    (seen : list K) (l : list A) :
  keep_first key eqb seen (map f l)
  = map f (keep_first (fun a => key (f a)) eqb seen l).
Proof.
  revert seen. induction l as [|x t IH]; intros seen; [reflexivity|].
  simpl. destruct (existsb (eqb (key (f x))) seen); simpl; now rewrite IH.
Qed.

Lemma filter_none {A} (f : A -> bool) (l : list A) :
  (forall x, In x l -> f x = false) -> filter f l = [].
Proof.
  induction l as [|x t IH]; [reflexivity|]. intros H. simpl.
  rewrite (H x) by now left. apply IH. intros y Hy. apply H. now right.
Qed.

Lemma filter_label {A} (df : indexed A) (r : nat * A) :
  NoDup (map fst df) -> In r df ->
  filter (fun x => (fst x =? fst r)%nat) df = [r].
Proof.
  induction df as [|y t IH]; [intros _ []|].
  simpl. intros Hnd Hin. inversion Hnd as [|? ? Hy Ht]; subst.
  destruct Hin as [->|Hin].
  - rewrite Nat.eqb_refl. f_equal.
    apply filter_none. intros x Hx. apply Nat.eqb_neq.
    intros E. apply Hy. rewrite <- E. now apply in_map.
  - destruct (Nat.eqb_spec (fst y) (fst r)) as [E|E].
    + exfalso. apply Hy. rewrite E. now apply in_map.
    + now apply IH.
Qed.

Lemma loc_index {A} (df sub : indexed A) :
  NoDup (map fst df) -> incl sub df -> loc df (index sub) = sub.
Proof.
  intros Hnd. unfold loc, index. induction sub as [|r t IH]; [reflexivity|].
  intros Hi. simpl. rewrite filter_label; auto.
  - simpl. f_equal. apply IH. intros x Hx. apply Hi. now right.
  - apply Hi. now left.
Qed.

Lemma range_index_fst {A} (l : list A) (k : nat) :
  map fst (combine (seq k (List.length l)) l) = seq k (List.length l).
Proof.
  revert k. induction l as [|x t IH]; intros k; [reflexivity|].
  simpl. now rewrite IH.
Qed.

Lemma range_index_snd {A} (l : list A) (k : nat) :
  map snd (combine (seq k (List.length l)) l) = l.
Proof.
  revert k. induction l as [|x t IH]; intros k; [reflexivity|].
  simpl. now rewrite IH.
Qed.

Lemma keep_first_labels {A K} (key : A -> K) (eqb : K -> K -> bool)
    (seen : list K) (df : indexed A) :
  NoDup (map fst df) ->
  NoDup (map fst (keep_first (fun r => key (snd r)) eqb seen df))
  /\ incl (keep_first (fun r => key (snd r)) eqb seen df) df.
Proof.
  revert seen. induction df as [|r t IH]; intros seen Hnd.
  - split; [constructor | intros x []].
  - inversion Hnd as [|? ? Hr Ht]; subst. simpl.
    destruct (existsb (eqb (key (snd r))) seen).
    + destruct (IH seen Ht) as [H1 H2]. split; [assumption|].
      intros x Hx. right. now apply H2.
    + destruct (IH (key (snd r) :: seen) Ht) as [H1 H2]. split.
      * simpl. constructor; [|assumption]. intros Hin. apply Hr.
        apply in_map_iff in Hin as (x & <- & Hx). apply in_map. now apply H2.
      * intros x [->|Hx]; [now left | right; now apply H2].
Qed.

(** Dropping the repeated rows first does not change which row is the first
    of its identifier. *)
Lemma keep_first_after_rows (seenP : list Z) (seenR l : list project) :
  (forall r, In r seenR -> In (PID r) seenP) ->
  keep_first PID Z.eqb seenP (keep_first (fun r => r) project_eqb seenR l)
  = keep_first PID Z.eqb seenP l.
Proof.
  revert seenP seenR. induction l as [|x t IH]; intros seenP seenR Hinv;
    [reflexivity|].
  simpl. destruct (existsb (project_eqb x) seenR) eqn:ER.
  - apply (existsb_eqb project_eqb project_eqb_spec) in ER.
    apply Hinv in ER. apply (existsb_eqb Z.eqb Z.eqb_eq) in ER.
    rewrite ER. now apply IH.
  - simpl. destruct (existsb (Z.eqb (PID x)) seenP) eqn:EP.
    + apply IH. intros r [<-|Hr]; [|now apply Hinv].
      now apply (existsb_eqb Z.eqb Z.eqb_eq).
    + f_equal. apply IH. intros r [<-|Hr]; [now left | right; now apply Hinv].
Qed.

Lemma Selector_keep_first (records : list project) :
  Selector records = keep_first PID Z.eqb [] records.
Proof.
  unfold Selector, cell_12, cell_11, drop_duplicates, range_index.
  set (data := combine (seq 0 (List.length records)) records).
  assert (Hdata : NoDup (map fst data)).
  { unfold data. rewrite range_index_fst. apply seq_NoDup. }
  rewrite !drop_duplicates_keep_first.
  set (all := keep_first snd project_eqb [] data).
  destruct (keep_first_labels (fun r => r) project_eqb [] data Hdata)
    as [Hall _]. fold all in Hall.
  unfold PID_column. rewrite keep_first_map. unfold index.
  rewrite map_map. simpl.
  change (map (fun x : nat * project => fst x)) with (@map (nat * project) nat fst).
  fold (index (keep_first (fun a : nat * project => PID (snd a)) Z.eqb [] all)).
  rewrite loc_index; [|assumption|apply (keep_first_labels PID Z.eqb [] all Hall)].
  rewrite <- (keep_first_map snd PID).
  unfold all. rewrite <- (keep_first_map snd (fun r => r)).
  unfold data. rewrite range_index_snd.
  apply keep_first_after_rows. intros r [].
Qed.

Lemma position_cons_ne (pid : Z) (r : project) (t : list project) :
  PID r <> pid -> position pid (r :: t) = S (position pid t).
Proof. intros H. simpl. apply Z.eqb_neq in H. now rewrite H. Qed.

Lemma keep_first_positions (seen : list Z) (l : list project) :
  StronglySorted lt
    (map (fun r => position (PID r) l) (keep_first PID Z.eqb seen l)).
Proof.
  revert seen. induction l as [|x t IH]; intros seen; [constructor|].
  assert (Hshift : forall seen',
    (forall r, In r (keep_first PID Z.eqb seen' t) -> PID r <> PID x) ->
    map (fun r => position (PID r) (x :: t)) (keep_first PID Z.eqb seen' t)
    = map S (map (fun r => position (PID r) t) (keep_first PID Z.eqb seen' t))).
  { intros seen' H. rewrite map_map. apply map_ext_in. intros r Hr.
    apply position_cons_ne. intros E. now apply (H r Hr). }
  assert (Hmono : forall m, StronglySorted lt m -> StronglySorted lt (map S m)).
  { induction 1 as [|a m Hm IHm Ha]; simpl; constructor; auto.
    apply Forall_map. revert Ha. apply Forall_impl. intros; lia. }
  cbn [keep_first]. destruct (existsb (Z.eqb (PID x)) seen) eqn:E.
  - rewrite Hshift; [apply Hmono, IH|].
    intros r Hr Er. apply (keep_first_incl PID Z.eqb Z.eqb_eq) in Hr as [_ Hr].
    apply Hr. rewrite Er. now apply (existsb_eqb Z.eqb Z.eqb_eq).
  - cbn [map]. rewrite Hshift.
    + constructor; [apply Hmono, IH|].
      simpl. rewrite Z.eqb_refl. apply Forall_map, Forall_forall. intros; lia.
    + intros r Hr Er. apply (keep_first_incl PID Z.eqb Z.eqb_eq) in Hr as [_ Hr].
      apply Hr. left. now symmetry.
Qed.

Lemma keep_first_find (seen : list Z) (l : list project) (r : project) :
  In r (keep_first PID Z.eqb seen l) ->
  find (fun x => (PID x =? PID r)%Z) l = Some r.
Proof.
  revert seen. induction l as [|x t IH]; intros seen; [intros []|].
  simpl. destruct (existsb (Z.eqb (PID x)) seen) eqn:E.
  - intros H. destruct (Z.eqb_spec (PID x) (PID r)) as [Ex|Ex]; [|eauto].
    apply (keep_first_incl PID Z.eqb Z.eqb_eq) in H as [_ H]. exfalso. apply H.
    rewrite <- Ex. now apply (existsb_eqb Z.eqb Z.eqb_eq).
  - intros [->|H]; [now rewrite Z.eqb_refl|].
    destruct (Z.eqb_spec (PID x) (PID r)) as [Ex|Ex]; [|eauto].
    apply (keep_first_incl PID Z.eqb Z.eqb_eq) in H as [_ H]. exfalso. apply H.
    now left.
Qed.

Example Selector_scenario :
  let boiler := Text (lit "Replace aging boiler system. Includes HVAC upgrade.") in
  Selector [ {| PID := 3; Description := boiler |};
             {| PID := 3; Description := boiler |};
             {| PID := 7; Description := NaN |} ]
  = [ {| PID := 3; Description := boiler |}; {| PID := 7; Description := NaN |} ].
Proof. reflexivity. Qed.

(** C2. The selection holds each identifier of the input once; the record
    it holds for an identifier is the first one of the input with that
    identifier, and so carries its description; the records come in the
    order in which their identifiers first appear; an empty input gives an
    empty selection. *)
Theorem Selector_correct (records : list project) :
  let projects := Selector records in
  NoDup (map PID projects)
  /\ (forall pid, In pid (map PID projects) <-> In pid (map PID records))
  /\ (forall r, In r projects ->
        find (fun x => (PID x =? PID r)%Z) records = Some r)
  /\ StronglySorted lt (map (fun r => position (PID r) records) projects)
  /\ Selector [] = [].
Proof.
  intros projects. subst projects. rewrite Selector_keep_first.
  split; [apply (keep_first_NoDup PID Z.eqb Z.eqb_eq)|].
  split; [|split; [|split]].
  - intros pid. rewrite (keep_first_keys PID Z.eqb Z.eqb_eq). simpl. tauto.
  - intros r. apply keep_first_find.
  - apply keep_first_positions.
  - reflexivity.
Qed.

(** ** The writer *)

Lemma for_each_write {A} (f : A -> str) (l : list A) (file : str) :
  for_each l (fun x => write (f x)) file = (Ok tt, file ++ flat_map f l).
Proof.
  revert file. induction l as [|x t IH]; intros file.
  - simpl. unfold ret. now rewrite app_nil_r.
  - simpl. unfold bind, write at 1. rewrite IH. now rewrite <- app_assoc.
Qed.

Lemma for_each_ext {A} (l : list A) (body1 body2 : A -> io unit) (file : str) :
  (forall x file', In x l -> body1 x file' = body2 x file') ->
  for_each l body1 file = for_each l body2 file.
Proof.
  revert file. induction l as [|x t IH]; intros file H; [reflexivity|].
  simpl. unfold bind. rewrite H by now left.
  destruct (body2 x file) as [[[]|e] file']; [|reflexivity].
  apply IH. intros y f Hy. apply H. now right.
Qed.

Lemma for_each_map {A B} (f : A -> B) (l : list A) (body : B -> io unit)
    (file : str) :
  for_each (map f l) body file = for_each l (fun x => body (f x)) file.
Proof.
  revert file. induction l as [|x t IH]; intros file; [reflexivity|].
  simpl. unfold bind. destruct (body (f x) file) as [[[]|e] file']; auto.
Qed.

Lemma remove_char_absent (c : char) (s : str) :
  ~ In c s -> Py.remove_char c s = s.
Proof.
  induction s as [|a t IH]; [reflexivity|].
  intros H. simpl. destruct (N.eqb_spec a c) as [->|Hc].
  - exfalso. apply H. now left.
  - simpl. f_equal. apply IH. intros Hin. apply H. now right.
Qed.

Lemma remove_char_app (c : char) (a b : str) :
  Py.remove_char c (a ++ b) = Py.remove_char c a ++ Py.remove_char c b.
Proof. apply filter_app. Qed.

Lemma numeric_char_cases (c : char) :
  numeric_char c = true -> In c (lit "0123456789+-.einfa").
Proof.
  unfold numeric_char. rewrite existsb_exists.
  intros (y & Hy & E). apply N.eqb_eq in E. now subst.
Qed.

Lemma numeric_char_plain (c : char) :
  numeric_char c = true ->
  Csv.special c = false /\ c <> lbracket /\ c <> rbracket /\ c <> comma
  /\ c <> dquote /\ Pd.classify c = Pd.Other.
Proof.
  intros H. apply numeric_char_cases in H.
  assert (G : Forall (fun c => Csv.special c = false /\ c <> lbracket
                      /\ c <> rbracket /\ c <> comma /\ c <> dquote
                      /\ Pd.classify c = Pd.Other)
                (lit "0123456789+-.einfa")).
  { repeat constructor; discriminate. }
  rewrite Forall_forall in G. now apply G.
Qed.

Lemma join_Forall (P : char -> Prop) (sep : str) (l : list str) :
  Forall P sep -> Forall (Forall P) l -> Forall P (Py.join sep l).
Proof.
  intros Hs H. induction H as [|x t Hx Ht IH]; [constructor|].
  destruct t as [|y t]; [exact Hx|].
  rewrite join_cons2. apply Forall_app. split; [assumption|].
  apply Forall_app. split; assumption.
Qed.

Lemma str_of_uint_digits (d : Decimal.uint) :
  Forall (fun c => Csv.special c = false /\ Pd.classify c = Pd.Other)
         (Py.str_of_uint d).
Proof. induction d; simpl; constructor; auto. Qed.

Lemma to_int_not_nil (z : Z) :
  match Z.to_int z with
  | Decimal.Pos d | Decimal.Neg d => d <> Decimal.Nil
  end.
Proof.
  destruct z as [|p|p]; simpl; try discriminate;
    pose proof (DecimalPos.Unsigned.to_uint_nonnil p); assumption.
Qed.

Lemma str_of_int_plain (z : Z) :
  Py.str_of_int z <> []
  /\ Forall (fun c => Csv.special c = false /\ Pd.classify c = Pd.Other)
            (Py.str_of_int z).
Proof.
  unfold Py.str_of_int. pose proof (to_int_not_nil z) as Hn.
  destruct (Z.to_int z) as [d|d].
  - split; [|apply str_of_uint_digits]. destruct d; simpl; congruence.
  - split; [discriminate|]. constructor; [now split | apply str_of_uint_digits].
Qed.

Lemma needs_quotes_false (f : str) :
  Forall (fun c => Csv.special c = false) f -> Csv.needs_quotes f = false.
Proof.
  induction 1 as [|c t Hc _ IH]; [reflexivity|].
  simpl. now rewrite Hc, IH.
Qed.

Lemma needs_quotes_comma (f : str) : In comma f -> Csv.needs_quotes f = true.
Proof.
  intros H. unfold Csv.needs_quotes. apply existsb_exists.
  exists comma. split; [assumption | reflexivity].
Qed.

Lemma quoted_plain (f : str) :
  ~ In dquote f -> Csv.quoted f = [dquote] ++ f ++ [dquote].
Proof.
  intros H. unfold Csv.quoted. simpl. do 2 f_equal.
  induction f as [|c t IH]; [reflexivity|]. simpl.
  destruct (N.eqb_spec c dquote) as [->|Hc].
  - exfalso. apply H. now left.
  - simpl. f_equal. apply IH. intros Hin. apply H. now right.
Qed.

Section WriterFormat.

Context {num : Numbers}.
Hypothesis repr_numeric : forall x, numeric_text (repr x).

Lemma body_chars (v : list float32) :
  Forall (fun c => numeric_char c = true \/ c = comma \/ c = space)
         (Py.join (lit ", ") (map repr v)).
Proof.
  apply join_Forall.
  - constructor; [right; left; reflexivity|].
    constructor; [right; right; reflexivity | constructor].
  - apply Forall_map, Forall_forall. intros x _.
    destruct (repr_numeric x) as [_ H]. revert H. apply Forall_impl. auto.
Qed.

Lemma body_not (c : char) (v : list float32) :
  numeric_char c = false -> c <> comma -> c <> space ->
  ~ In c (Py.join (lit ", ") (map repr v)).
Proof.
  intros Hn Hc Hs Hin. pose proof (body_chars v) as H.
  rewrite Forall_forall in H. destruct (H _ Hin) as [E|[E|E]]; congruence.
Qed.

Lemma format_embedding_body (v : list float32) :
  format_embedding v = Py.join (lit ", ") (map repr v).
Proof.
  unfold format_embedding, str_of_list.
  rewrite !remove_char_app. simpl.
  rewrite !app_nil_r.
  rewrite (remove_char_absent lbracket) by (apply body_not; [reflexivity | discriminate | discriminate]).
  apply remove_char_absent. apply body_not; [reflexivity | discriminate | discriminate].
Qed.

Lemma field_embedding (v : list float32) :
  Csv.field false (format_embedding v) = embedding_field v.
Proof.
  rewrite format_embedding_body. unfold Csv.field. rewrite andb_false_l, orb_false_r.
  destruct v as [|x [|y t]].
  - reflexivity.
  - simpl. rewrite needs_quotes_false; [reflexivity|].
    destruct (repr_numeric x) as [_ H]. revert H. apply Forall_impl.
    intros c Hc. now apply numeric_char_plain.
  - unfold embedding_field.
    rewrite needs_quotes_comma.
    + apply quoted_plain. apply body_not; [reflexivity | discriminate | discriminate].
    + simpl map. rewrite join_cons2. apply in_or_app. right. now left.
Qed.

Lemma row_text_record (r : EmbeddingRecord) :
  Csv.row_text [Csv.VInt (identifier r); Csv.VStr (format_embedding (vector r))]
  = record_line r.
Proof.
  unfold Csv.row_text, record_line. cbn [Csv.alone map Csv.to_str].
  rewrite join_cons2. cbn [Py.join]. rewrite field_embedding.
  unfold Csv.field. rewrite andb_false_l, orb_false_r.
  rewrite needs_quotes_false.
  - now rewrite <- !app_assoc.
  - destruct (str_of_int_plain (identifier r)) as [_ H]. revert H.
    apply Forall_impl. tauto.
Qed.

Lemma Writer_text (records : list EmbeddingRecord) (old : str) :
  Writer records old = (Ok tt, header_text ++ flat_map record_line records).
Proof.
  unfold Writer, write_header, write_embedding, Csv.writerow.
  unfold bind at 1. unfold open_w. unfold bind at 1. unfold write at 1.
  rewrite for_each_write. f_equal. f_equal.
  apply flat_map_ext. intros r. apply row_text_record.
Qed.

End WriterFormat.

Lemma sample_repr_numeric : forall x : sample, numeric_text (sample_repr x).
Proof. intros []; split; try discriminate; repeat constructor. Qed.

(** C3, as the code has it. With component texts of digits, sign, point and
    exponent, the writer leaves in the file the header line [PID,embedding]
    and one line for each record, in the order of the records, every line
    ended by a carriage return and a line feed. A line is the identifier in
    decimal, a comma and the embedding field: the texts of the components
    separated by a comma and a space, without brackets, and between double
    quotes as soon as there are two components. The records of the scenario
    give the three lines of the second part. *)
Theorem Writer_format :
  (forall (num : Numbers),
     (forall x, numeric_text (repr x)) ->
     forall (records : list EmbeddingRecord) (old : str),
       Writer records old
       = (Ok tt, header_text ++ flat_map record_line records))
  /\ snd (Writer scenario_records [])
     = lit "PID,embedding" ++ [CR; LF]
       ++ lit "3," ++ [dquote] ++ lit "0.1, -2.5" ++ [dquote] ++ [CR; LF]
       ++ lit "7,1.0" ++ [CR; LF].
Proof.
  split; [|reflexivity].
  intros num H records old. now apply Writer_text.
Qed.

Lemma Writer_format_witness :
  Writer scenario_records (lit "what the file held before")
  = (Ok tt, header_text ++ flat_map record_line scenario_records).
Proof.
  apply (proj1 Writer_format sample_numbers). exact sample_repr_numeric.
Defined.

(** C3, as the specification words it, fails on its own scenario: the
    embedding of two components is written between double quotes, with a
    space after its comma, and the lines end in a carriage return and a line
    feed. *)
Lemma Writer_scenario_differs :
  snd (Writer scenario_records [])
  <> lit "PID,embedding" ++ [LF] ++ lit "3,0.1,-2.5" ++ [LF]
     ++ lit "7,1.0" ++ [LF].
Proof. vm_compute. discriminate. Qed.

Lemma cell_14_loop {num : Numbers}
    (extract_embeddings : list str -> list (list float32))
    (projects : list project) (old : str) :
  cell_14 extract_embeddings projects old
  = for_each projects (fun row =>
      emb <- lift (item0 (extract_embeddings (normalize (Description row)))) ;;
      write_embedding (PID row) emb) header_text.
Proof. reflexivity. Qed.

(** C10. The run leaves a file, and ends in a result, that the records and
    the embeddings of their normalised descriptions determine: two runs on
    the same records, with encoders that agree on these descriptions, end
    alike whatever the output file held before. *)
Theorem pipeline_deterministic {num : Numbers}
    (extract1 extract2 : list str -> list (list float32))
    (records : list project) (old1 old2 : str) :
  (forall r, In r records ->
     extract1 (normalize (Description r)) = extract2 (normalize (Description r))) ->
  pipeline extract1 records old1 = pipeline extract2 records old2.
Proof.
  intros H. unfold pipeline. rewrite !cell_14_loop.
  apply for_each_ext. intros r file Hr.
  rewrite Selector_keep_first in Hr.
  apply (keep_first_incl PID Z.eqb Z.eqb_eq) in Hr as [Hr _].
  unfold bind. now rewrite (H r Hr).
Qed.

Lemma pipeline_deterministic_witness :
  let records := [ {| PID := 3; Description := Text (lit "Replace boiler. ") |};
                   {| PID := 7; Description := NaN |} ] in
  let extract1 := fun desc : list str => map (fun _ => [tenth; one]) desc in
  let extract2 := fun desc : list str =>
    if existsb (Py.str_eqb (lit "no such text")) desc then []
    else map (fun _ => [tenth; one]) desc in
  @pipeline sample_numbers extract1 records (lit "one file")
  = @pipeline sample_numbers extract2 records (lit "another file").
Proof.
  intros records extract1 extract2.
  apply (@pipeline_deterministic sample_numbers).
  intros r [<-|[<-|[]]]; reflexivity.
Defined.

(** The loop of cell 14 is the writer on the records the encoder gives. *)
Lemma cell_14_Writer {num : Numbers}
    (extract_embeddings : list str -> list (list float32))
    (embed : project -> list float32) (projects : list project) (old : str) :
  (forall row, In row projects ->
     item0 (extract_embeddings (normalize (Description row))) = Ok (embed row)) ->
  cell_14 extract_embeddings projects old
  = Writer (map (fun row => {| identifier := PID row; vector := embed row |})
                projects) old.
Proof.
  intros H. rewrite cell_14_loop.
  change (Writer ?l old) with
    (for_each l (fun r => write_embedding (identifier r) (vector r)) header_text).
  rewrite for_each_map. apply for_each_ext. intros row file Hr.
  unfold bind, lift. now rewrite (H row Hr).
Qed.

(** ** The reader *)

Lemma classify_not_quote (c : char) : c <> dquote -> Pd.classify c <> Pd.Quote.
Proof.
  intros H. unfold Pd.classify.
  destruct (c =? comma); [discriminate|].
  destruct (N.eqb_spec c dquote); [contradiction|].
  destruct (c =? CR); [discriminate|].
  destruct (c =? LF); discriminate.
Qed.

Lemma tokenize_in_field (s fld : str) (line : list str) (rest : str) :
  Forall (fun c => Pd.classify c = Pd.Other) s ->
  Pd.tokenize Pd.IN_FIELD fld line (s ++ rest)
  = Pd.tokenize Pd.IN_FIELD (rev s ++ fld) line rest.
Proof.
  intros H. revert fld. induction H as [|c t Hc _ IH]; intros fld;
    [reflexivity|].
  simpl. rewrite Hc, IH. now rewrite <- app_assoc.
Qed.

Lemma tokenize_in_quoted (s fld : str) (line : list str) (rest : str) :
  ~ In dquote s ->
  Pd.tokenize Pd.IN_QUOTED_FIELD fld line (s ++ rest)
  = Pd.tokenize Pd.IN_QUOTED_FIELD (rev s ++ fld) line rest.
Proof.
  revert fld. induction s as [|c t IH]; intros fld H; [reflexivity|].
  assert (Hc : Pd.classify c <> Pd.Quote).
  { apply classify_not_quote. intros ->. apply H. now left. }
  simpl. rewrite <- app_assoc. simpl.
  rewrite <- IH by (intros Hin; apply H; now right).
  destruct (Pd.classify c); try reflexivity. contradiction.
Qed.

(** A line of the writer, with a quoted second field, is read back as its
    two fields. *)
Lemma tokenize_line (idt body rest : str) :
  idt <> [] ->
  Forall (fun c => Pd.classify c = Pd.Other) idt ->
  ~ In dquote body ->
  Pd.tokenize Pd.START_RECORD [] []
    ((idt ++ [comma] ++ ([dquote] ++ body ++ [dquote]) ++ [CR; LF]) ++ rest)
  = rbind (Pd.tokenize Pd.START_RECORD [] [] rest)
          (fun ls => Ok ([idt; body] :: ls)).
Proof.
  intros Hne Hid Hb.
  replace ((idt ++ [comma] ++ ([dquote] ++ body ++ [dquote]) ++ [CR; LF]) ++ rest)
    with (idt ++ comma :: dquote :: body ++ dquote :: CR :: LF :: rest)
    by (cbn [app]; rewrite <- !app_assoc; cbn [app]; now rewrite <- !app_assoc).
  destruct idt as [|c t]; [contradiction|].
  inversion Hid as [|? ? Hc Ht]; subst.
  cbn [app Pd.tokenize]. rewrite Hc.
  rewrite tokenize_in_field by assumption.
  cbn [Pd.tokenize]. change (Pd.classify comma) with Pd.Delim.
  change (Pd.classify dquote) with Pd.Quote. cbv iota.
  rewrite tokenize_in_quoted by assumption.
  cbn [Pd.tokenize]. change (Pd.classify dquote) with Pd.Quote.
  change (Pd.classify CR) with Pd.Cr. change (Pd.classify LF) with Pd.Lf.
  cbv iota. unfold Pd.end_line.
  rewrite app_nil_r. cbn [rev app].
  rewrite rev_involutive.
  change (rev t ++ [c]) with (rev (c :: t)). now rewrite rev_involutive.
Qed.

Lemma tokenize_header (rest : str) :
  Pd.tokenize Pd.START_RECORD [] [] (header_text ++ rest)
  = rbind (Pd.tokenize Pd.START_RECORD [] [] rest)
          (fun ls => Ok ([lit "PID"; lit "embedding"] :: ls)).
Proof. reflexivity. Qed.

Lemma uint_of_str_of_uint (d : Decimal.uint) :
  Pd.uint_of_str (Py.str_of_uint d) = Some d.
Proof. induction d; simpl; try rewrite IHd; reflexivity. Qed.

Lemma skip_blanks_plain (s : str) :
  match s with c :: _ => Pd.blank c = false | [] => True end ->
  Pd.skip_blanks s = s.
Proof. destruct s as [|c t]; [reflexivity|]. simpl. now intros ->. Qed.

Lemma trim_plain (s : str) :
  Forall (fun c => Pd.blank c = false) s -> Pd.trim s = s.
Proof.
  intros H. unfold Pd.trim.
  rewrite (skip_blanks_plain s) by (destruct H; auto).
  rewrite skip_blanks_plain; [apply rev_involutive|].
  apply Forall_rev in H. destruct H; auto.
Qed.

Lemma skip_blanks_keeps (s : str) (c : char) :
  In c s -> Pd.blank c = false -> In c (Pd.skip_blanks s).
Proof.
  induction s as [|a t IH]; [intros []|].
  intros Hin Hc. simpl. destruct (Pd.blank a) eqn:E; [|assumption].
  destruct Hin as [->|Hin]; [congruence | auto].
Qed.

Lemma trim_keeps (s : str) (c : char) :
  In c s -> Pd.blank c = false -> In c (Pd.trim s).
Proof.
  intros Hin Hc. unfold Pd.trim. rewrite <- in_rev.
  apply skip_blanks_keeps; [|assumption]. rewrite <- in_rev.
  now apply skip_blanks_keeps.
Qed.

Lemma str_of_int_no_blank (z : Z) :
  Forall (fun c => Pd.blank c = false) (Py.str_of_int z).
Proof.
  assert (H : forall d, Forall (fun c => Pd.blank c = false) (Py.str_of_uint d)).
  { induction d; simpl; constructor; auto. }
  unfold Py.str_of_int. destruct (Z.to_int z); [apply H|].
  constructor; [reflexivity | apply H].
Qed.

Lemma parse_int_str_of_int (z : Z) : Pd.parse_int (Py.str_of_int z) = Some z.
Proof.
  unfold Pd.parse_int. rewrite trim_plain by apply str_of_int_no_blank.
  pose proof (DecimalZ.of_to z) as Hof. pose proof (to_int_not_nil z) as Hn.
  unfold Py.str_of_int. destruct (Z.to_int z) as [d|d].
  - pose proof (uint_of_str_of_uint d) as Hu.
    destruct (Py.str_of_uint d) as [|c t] eqn:E.
    { destruct d; simpl in E; congruence. }
    assert (Hm : (c =? minus) = false).
    { apply N.eqb_neq. intros ->. unfold minus in E.
      destruct d; simpl in E; congruence. }
    assert (Hp : (c =? plus) = false).
    { apply N.eqb_neq. intros ->. unfold plus in E.
      destruct d; simpl in E; congruence. }
    rewrite Hm, Hp, Hu, Hof. reflexivity.
  - rewrite N.eqb_refl.
    rewrite uint_of_str_of_uint, Hof.
    destruct (Py.str_of_uint d) eqn:E; [|reflexivity].
    destruct d; simpl in E; congruence.
Qed.

Lemma parse_int64_str_of_int (z : Z) :
  Pd.int64 z -> Pd.parse_int64 (Py.str_of_int z) = Some z.
Proof.
  intros Hz. assert (Hr : Pd.in_int64 z = true).
  { unfold Pd.in_int64, Pd.int64 in *. apply andb_true_iff.
    split; [apply Z.leb_le | apply Z.ltb_lt]; lia. }
  unfold Pd.parse_int64. now rewrite parse_int_str_of_int, Hr.
Qed.

Lemma uint_of_str_comma (s : str) : In comma s -> Pd.uint_of_str s = None.
Proof.
  induction s as [|c t IH]; [intros []|].
  intros [->|H]; simpl.
  - destruct (Pd.uint_of_str t); reflexivity.
  - now rewrite IH.
Qed.

Lemma parse_int_comma (s : str) : In comma s -> Pd.parse_int s = None.
Proof.
  intros H0. assert (H : In comma (Pd.trim s)) by now apply trim_keeps.
  unfold Pd.parse_int. destruct (Pd.trim s) as [|c t]; [reflexivity|].
  destruct (N.eqb_spec c minus) as [->|Hm].
  - destruct H as [H|H]; [discriminate|].
    rewrite (uint_of_str_comma t H). now destruct t.
  - destruct (N.eqb_spec c plus) as [->|Hp].
    + destruct H as [H|H]; [discriminate|].
      rewrite (uint_of_str_comma t H). now destruct t.
    + now rewrite (uint_of_str_comma (c :: t) H).
Qed.

Lemma parse_int64_comma (s : str) : In comma s -> Pd.parse_int64 s = None.
Proof. intros H. unfold Pd.parse_int64. now rewrite parse_int_comma. Qed.

Lemma parse_uint64_comma (s : str) : In comma s -> Pd.parse_uint64 s = None.
Proof. intros H. unfold Pd.parse_uint64. now rewrite parse_int_comma. Qed.

Lemma is_na_comma (s : str) : In comma s -> Pd.is_na s = false.
Proof.
  intros H. destruct (Pd.is_na s) eqn:E; [|reflexivity].
  unfold Pd.is_na in E. apply existsb_exists in E as (v & Hv & E).
  apply str_eqb_spec in E. subst v.
  assert (G : forallb (fun v => negb (existsb (N.eqb comma) v)) Pd.na_values
              = true) by reflexivity.
  rewrite forallb_forall in G. specialize (G _ Hv).
  apply negb_true_iff in G. rewrite <- G. symmetry.
  apply existsb_exists. exists comma. split; [assumption | reflexivity].
Qed.

Lemma split_no_sep_single (sep : char) (s : str) :
  ~ In sep s -> Py.split sep s = [s].
Proof.
  induction s as [|c t IH]; [reflexivity|].
  intros H. rewrite split_cons.
  destruct (N.eqb_spec c sep) as [->|Hc]; [exfalso; apply H; now left|].
  rewrite IH; [reflexivity|]. intros Hin. apply H. now right.
Qed.

Lemma split_app_sep (sep : char) (a b : str) :
  ~ In sep a -> Py.split sep (a ++ sep :: b) = a :: Py.split sep b.
Proof.
  induction a as [|c t IH]; intros H.
  - simpl. now rewrite N.eqb_refl.
  - cbn [app]. rewrite split_cons.
    destruct (N.eqb_spec c sep) as [->|Hc]; [exfalso; apply H; now left|].
    rewrite IH; [reflexivity|]. intros Hin. apply H. now right.
Qed.

Lemma rows_of_columns {C A} (d : C) (f g : A -> C) (l : list A) :
  map (fun i => [nth i (map f l) d; nth i (map g l) d]) (seq 0 (List.length l))
  = map (fun x => [f x; g x]) l.
Proof.
  induction l as [|x t IH]; [reflexivity|].
  cbn [List.length seq map]. rewrite <- seq_shift, map_map.
  cbn [nth]. f_equal. exact IH.
Qed.

Section RoundTrip.

Context {num : Numbers}.

(** What it is for a number read back to equal, within the precision of the
    decimal text, the number written. *)
Variable close : float32 -> float64 -> Prop.

Hypothesis repr_numeric : forall x, numeric_text (repr x).
(** [float] reads the text of a number back, *)
Hypothesis float_repr : forall x, exists y, float_ (repr x) = Some y /\ close x y.
(** and does not look at a space before its argument. *)
Hypothesis float_space : forall s, float_ (space :: s) = float_ s.
(** pandas takes no field with a comma for a number. *)
Hypothesis pd_float_comma : forall s, In comma s -> pd_float s = None.

Lemma repr_no_comma (x : float32) : ~ In comma (repr x).
Proof.
  destruct (repr_numeric x) as [_ H]. rewrite Forall_forall in H.
  intros Hin. now apply H, numeric_char_plain in Hin.
Qed.

Lemma body_comma (r : EmbeddingRecord) :
  (2 <= List.length (vector r))%nat -> In comma (vector_text r).
Proof.
  unfold vector_text. destruct (vector r) as [|x [|y t]]; simpl List.length; try lia.
  intros _. simpl map. rewrite join_cons2. apply in_or_app. right. now left.
Qed.

Lemma tokenize_lines (records : list EmbeddingRecord) :
  Forall (fun r => (2 <= List.length (vector r))%nat) records ->
  Pd.tokenize Pd.START_RECORD [] [] (flat_map record_line records)
  = Ok (map (fun r => [identifier_text r; vector_text r]) records).
Proof.
  induction 1 as [|r t Hr _ IH]; [reflexivity|].
  cbn [flat_map map]. unfold record_line at 1, embedding_field.
  destruct (vector r) as [|x [|y v]] eqn:E; simpl in Hr; try lia.
  destruct (str_of_int_plain (identifier r)) as [Hne Hid].
  rewrite tokenize_line.
  - rewrite IH. unfold identifier_text, vector_text. rewrite E. reflexivity.
  - assumption.
  - revert Hid. apply Forall_impl. tauto.
  - rewrite <- E. apply body_not; [assumption | reflexivity | discriminate | discriminate].
Qed.

Lemma infer_identifiers (records : list EmbeddingRecord) :
  Forall (fun r => Pd.int64 (identifier r)) records ->
  infer_column (map identifier_text records) = map (fun r => CInt (identifier r)) records.
Proof.
  intros H. unfold infer_column.
  assert (E : Pd.all_some (map Pd.parse_int64 (map identifier_text records))
              = Some (map identifier records)).
  { induction H as [|r t Hr _ IH]; [reflexivity|].
    simpl. unfold identifier_text at 1. rewrite parse_int64_str_of_int by assumption.
    now rewrite IH. }
  rewrite E. apply map_map.
Qed.

Lemma infer_embeddings (records : list EmbeddingRecord) :
  Forall (fun r => (2 <= List.length (vector r))%nat) records ->
  infer_column (map vector_text records) = map (fun r => CStr (vector_text r)) records.
Proof.
  intros H. destruct records as [|r t]; [reflexivity|].
  unfold infer_column.
  inversion H as [|? ? Hr Ht]; subst. apply body_comma in Hr.
  cbn [map Pd.all_some]. rewrite (parse_int64_comma _ Hr).
  rewrite (parse_uint64_comma _ Hr).
  rewrite (is_na_comma _ Hr), (pd_float_comma _ Hr). cbn [option_map].
  f_equal. rewrite map_map. apply map_ext_in. intros r' Hr'.
  rewrite Forall_forall in Ht. now rewrite is_na_comma by (apply body_comma; auto).
Qed.

Lemma read_csv_written (records : list EmbeddingRecord) :
  Forall (fun r => (2 <= List.length (vector r))%nat) records ->
  Forall (fun r => Pd.int64 (identifier r)) records ->
  read_csv (header_text ++ flat_map record_line records)
  = Ok {| columns := [lit "PID"; lit "embedding"];
          rows := map (fun r => [CInt (identifier r); CStr (vector_text r)]) records |}.
Proof.
  intros Hv Hi. unfold read_csv.
  rewrite tokenize_header, tokenize_lines by assumption.
  cbn [rbind]. set (data := map (fun r => [identifier_text r; vector_text r]) records).
  assert (Hw : match data with
               | [] => List.length [lit "PID"; lit "embedding"]
               | first :: _ =>
                   Nat.max (List.length [lit "PID"; lit "embedding"])
                           (List.length first)
               end = 2%nat).
  { unfold data. destruct records; reflexivity. }
  cbv zeta. rewrite Hw.
  assert (Hlen : existsb (fun l => (2 <? List.length l)%nat) data = false).
  { unfold data. clear. induction records; [reflexivity | exact IHrecords]. }
  rewrite Hlen. f_equal. f_equal.
  cbn [List.length seq map Nat.sub Nat.add].
  assert (E0 : map (fun l : list (list char) => nth 0 l []) data = map identifier_text records).
  { unfold data. now rewrite map_map. }
  assert (E1 : map (fun l : list (list char) => nth 1 l []) data = map vector_text records).
  { unfold data. now rewrite map_map. }
  rewrite E0, E1, infer_identifiers, infer_embeddings by assumption.
  unfold data. rewrite length_map. apply rows_of_columns.
Qed.

Lemma float_after_space (x : float32) : float_ (space :: repr x) = float_ (repr x).
Proof. apply float_space. Qed.

Lemma split_body (v : list float32) :
  Py.split comma (Py.join (lit ", ") (map repr v))
  = match v with
    | [] => [[]]
    | x :: t => repr x :: map (fun y => space :: repr y) t
    end.
Proof.
  destruct v as [|x t]; [reflexivity|]. revert x.
  induction t as [|y t IH]; intros x.
  - simpl. apply split_no_sep_single, repr_no_comma.
  - cbn [map]. rewrite join_cons2.
    change (lit ", " ++ ?l) with (comma :: space :: l).
    rewrite split_app_sep by apply repr_no_comma.
    rewrite split_cons. change (space =? comma) with false. cbv iota.
    cbn [map] in IH. rewrite IH. reflexivity.
Qed.

Lemma convert_written (r : EmbeddingRecord) :
  (2 <= List.length (vector r))%nat ->
  exists v,
    convert [lit "PID"; lit "embedding"] [CInt (identifier r); CStr (vector_text r)]
    = Ok v
    /\ Forall2 close (vector r) v.
Proof.
  intros Hr. unfold convert.
  change (getattr _ _ _) with (Ok (CStr (vector_text r))). cbn [rbind].
  unfold vector_text. rewrite split_body.
  destruct (vector r) as [|x t]; [simpl in Hr; lia|]. clear Hr.
  cbn [rmap]. destruct (float_repr x) as (y & Ey & Hy). rewrite Ey. cbn [rbind].
  assert (G : exists w,
    rmap (fun x0 => match float_ x0 with
                    | Some y0 => Ok y0
                    | None => Raise ValueError
                    end) (map (fun y0 => space :: repr y0) t) = Ok w
    /\ Forall2 close t w).
  { induction t as [|z t IH]; [exists []; split; [reflexivity | constructor]|].
    destruct IH as (w & Ew & Hw). destruct (float_repr z) as (u & Eu & Hu).
    exists (u :: w). cbn [map rmap]. rewrite float_after_space, Eu. cbn [rbind].
    rewrite Ew. split; [reflexivity | now constructor]. }
  destruct G as (w & Ew & Hw). rewrite Ew. exists (y :: w).
  split; [reflexivity | now constructor].
Qed.

Lemma Reader_written (records : list EmbeddingRecord) :
  records <> [] ->
  Forall (fun r => (2 <= List.length (vector r))%nat) records ->
  Forall (fun r => Pd.int64 (identifier r)) records ->
  exists lines,
    cell_18 (header_text ++ flat_map record_line records)
    = Ok {| columns := [lit "PID"; lit "embedding"]; rows := lines |}
    /\ Forall2 (fun r line => exists v, line = [CInt (identifier r); CList v]
                                        /\ Forall2 close (vector r) v)
               records lines.
Proof.
  intros Hne Hv Hi. unfold cell_18. rewrite read_csv_written by assumption.
  cbn [rbind]. unfold apply_convert. cbn [columns rows]. clear Hi.
  assert (G : exists lists,
    rmap (convert [lit "PID"; lit "embedding"])
         (map (fun r => [CInt (identifier r); CStr (vector_text r)]) records) = Ok lists
    /\ Forall2 (fun r v => Forall2 close (vector r) v) records lists).
  { clear Hne.
    induction Hv as [|r t Hr _ IH]; [exists []; split; [reflexivity | constructor]|].
    destruct IH as (lists & El & Hl).
    destruct (convert_written r Hr) as (v & Ev & Hc).
    exists (v :: lists). cbn [map rmap]. rewrite Ev. cbn [rbind]. rewrite El.
    split; [reflexivity | now constructor]. }
  destruct G as (lists & El & Hl).
  assert (Ea : match map (fun r => [CInt (identifier r); CStr (vector_text r)])
                         records with
               | [] => Ok (Frame [lit "PID"; lit "embedding"])
               | _ :: _ =>
                   rbind (rmap (convert [lit "PID"; lit "embedding"])
                            (map (fun r => [CInt (identifier r);
                                            CStr (vector_text r)]) records))
                         (fun lists => Ok (Series lists))
               end = Ok (Series lists)).
  { rewrite El. destruct records; [contradiction | reflexivity]. }
  rewrite Ea. cbn [rbind]. clear Hv Ea Hne.
  exists (map (fun v => [CInt (fst v); CList (snd v)])
              (combine (map identifier records) lists)).
  split.
  - unfold setitem. cbn [columns rows]. f_equal. f_equal.
    clear El. induction Hl as [|r v t lists _ _ IH]; [reflexivity|].
    cbn [map combine]. f_equal. exact IH.
  - clear El. induction Hl as [|r v t lists Hc _ IH]; [constructor|].
    cbn [map combine]. constructor; [|exact IH]. exists v. auto.
Qed.

End RoundTrip.

Lemma strip_idempotent (s : str) : Py.strip (Py.strip s) = Py.strip s.
Proof.
  destruct (strip_spec s) as (_ & _ & _ & _ & _ & Hh & Ht).
  now apply strip_fixed.
Qed.

Lemma sample_float_repr (x : sample) :
  exists y, sample_of_str (Py.strip_blank (sample_repr x)) = Some y /\ x = y.
Proof. exists x. destruct x; split; reflexivity. Qed.

Lemma sample_float_space (s : str) :
  sample_of_str (Py.strip_blank (space :: s)) = sample_of_str (Py.strip_blank s).
Proof. reflexivity. Qed.

Lemma sample_of_str_comma (s : str) : In comma s -> sample_of_str s = None.
Proof.
  intros H. unfold sample_of_str.
  repeat match goal with
  | |- context [Py.str_eqb s ?t] =>
      let E := fresh "E" in
      destruct (Py.str_eqb s t) eqn:E;
      [apply str_eqb_spec in E; subst s; exfalso;
       simpl in H; unfold comma in H; intuition discriminate|]
  end.
  reflexivity.
Qed.

(** C1, as the code has it. Let the text of a component consist of digits,
    sign, point and exponent, let [float] read such a text back as a number
    close to the component, a space before it or not, and let pandas take no
    field with a comma for a number. Then for records, one at least, whose
    vectors have two components or more and whose identifiers are 64-bit
    integers, the reader gives, from the file the writer left, as many rows
    as there were records, in their order, each with the identifier of its
    record and a vector whose components are close to those of the record,
    one for one. *)
Theorem Reader_Writer_round_trip {num : Numbers}
    (close : float32 -> float64 -> Prop) :
  (forall x, numeric_text (repr x)) ->
  (forall x, exists y, float_ (repr x) = Some y /\ close x y) ->
  (forall s, float_ (space :: s) = float_ s) ->
  (forall s, In comma s -> pd_float s = None) ->
  forall (records : list EmbeddingRecord) (old : str),
    records <> [] ->
    Forall (fun r => (2 <= List.length (vector r))%nat) records ->
    Forall (fun r => Pd.int64 (identifier r)) records ->
    exists lines,
      Reader (Writer records old)
      = Ok {| columns := [lit "PID"; lit "embedding"]; rows := lines |}
      /\ List.length lines = List.length records
      /\ Forall2 (fun r line =>
                    exists v, line = [CInt (identifier r); CList v]
                              /\ Forall2 close (vector r) v)
                 records lines.
Proof.
  intros Hrepr Hfloat Hspace Hpd records old Hne Hv Hi.
  unfold Reader. rewrite Writer_text by assumption. cbn [snd].
  destruct (Reader_written close Hrepr Hfloat Hspace Hpd records Hne Hv Hi)
    as (lines & E & H).
  exists lines. split; [assumption|]. split; [|assumption].
  symmetry. eapply Forall2_length. eassumption.
Qed.

Lemma Reader_Writer_round_trip_witness :
  exists lines,
    Reader (Writer long_records (lit "what the file held before"))
    = Ok {| columns := [lit "PID"; lit "embedding"]; rows := lines |}
    /\ List.length lines = List.length long_records
    /\ Forall2 (fun r line =>
                  exists v, line = [CInt (identifier r); CList v]
                            /\ Forall2 eq (vector r) v)
               long_records lines.
Proof.
  apply (@Reader_Writer_round_trip sample_numbers eq
           sample_repr_numeric sample_float_repr sample_float_space
           sample_of_str_comma long_records).
  - discriminate.
  - repeat constructor.
  - repeat constructor; discriminate.
Defined.

Example Reader_Writer_long_records :
  Reader (Writer long_records [])
  = Ok {| columns := [lit "PID"; lit "embedding"];
          rows := [ [CInt 3; CList [tenth; minus_two_and_a_half]];
                    [CInt 7; CList [one; tenth; one]] ] |}.
Proof. reflexivity. Qed.

(** C1, as the specification words it, fails on a file whose one record has
    a vector of one component, and on one whose record has a vector without
    component: the field is written without quotes, pandas reads the column
    as numbers or as missing values, and [convert] finds no text to
    split. *)
Lemma Reader_Writer_short_vector :
  Reader (Writer one_component []) = Raise AttributeError
  /\ Reader (Writer no_component []) = Raise AttributeError.
Proof. split; reflexivity. Qed.

(** C8. Without a record the loop of cell 14, and the writer, leave the
    header line alone in the file, whatever the file held before, and
    [read_csv] gets from that file a frame with the two columns and no row.
    Cell 18 does not end with that frame: [apply] on a frame without rows
    gives back a frame, not a series, and the assignment of a frame of two
    columns to the column [embedding] raises [ValueError]. *)
Theorem empty_input {num : Numbers}
    (extract_embeddings : list str -> list (list float32)) (old : str) :
  cell_14 extract_embeddings [] old = (Ok tt, lit "PID,embedding" ++ [CR; LF])
  /\ Writer [] old = (Ok tt, lit "PID,embedding" ++ [CR; LF])
  /\ read_csv (snd (Writer [] old))
     = Ok {| columns := [lit "PID"; lit "embedding"]; rows := [] |}
  /\ Reader (Writer [] old) = Raise ValueError
  /\ Reader (pipeline extract_embeddings [] old) = Raise ValueError.
Proof. repeat split. Qed.

(** * Further properties of the cells *)

(** ** The selection, continued *)

Section KeepFirstMore.

Context {A K : Type} (key : A -> K) (eqb : K -> K -> bool).
Hypothesis eqb_spec : forall a b, eqb a b = true <-> a = b.

Lemma keep_first_app (seen : list K) (a b : list A) :
  keep_first key eqb seen (a ++ b)
  = keep_first key eqb seen a
    ++ keep_first key eqb (rev (map key (keep_first key eqb seen a)) ++ seen) b.
Proof.
  revert seen. induction a as [|x t IH]; intros seen; [reflexivity|].
  simpl. destruct (existsb (eqb (key x)) seen); [apply IH|].
  simpl. f_equal. rewrite IH. f_equal. now rewrite <- app_assoc.
Qed.

Lemma keep_first_fixed (seen : list K) (l : list A) :
  NoDup (map key l) -> (forall x, In x l -> ~ In (key x) seen) ->
  keep_first key eqb seen l = l.
Proof.
  revert seen. induction l as [|x t IH]; intros seen Hnd Hs; [reflexivity|].
  inversion Hnd as [|? ? Hx Ht]; subst. simpl.
  destruct (existsb (eqb (key x)) seen) eqn:E.
  - apply (existsb_eqb eqb eqb_spec) in E. exfalso. apply (Hs x); [now left | assumption].
  - f_equal. apply IH; [assumption|].
    intros y Hy [Ey|Hin].
    + apply Hx. rewrite Ey. now apply in_map.
    + apply (Hs y); [now right | assumption].
Qed.

Lemma keep_first_length (seen : list K) (l : list A) :
  (List.length (keep_first key eqb seen l) <= List.length l)%nat.
Proof.
  revert seen. induction l as [|x t IH]; intros seen; [simpl; lia|].
  simpl. destruct (existsb (eqb (key x)) seen); simpl.
  - specialize (IH seen). lia.
  - specialize (IH (key x :: seen)). lia.
Qed.

End KeepFirstMore.

(** X1. Selecting twice is selecting once, and the selection is never
    longer than the table. *)
Theorem Selector_idempotent (records : list project) :
  Selector (Selector records) = Selector records
  /\ (List.length (Selector records) <= List.length records)%nat.
Proof.
  rewrite !Selector_keep_first. split.
  - apply (keep_first_fixed PID Z.eqb Z.eqb_eq).
    + apply (keep_first_NoDup PID Z.eqb Z.eqb_eq).
    + intros x _ [].
  - apply keep_first_length.
Qed.

(** X2. The selection leaves a table unchanged exactly when no identifier
    occurs twice in it. *)
Theorem Selector_fixed_iff (records : list project) :
  Selector records = records <-> NoDup (map PID records).
Proof.
  rewrite Selector_keep_first. split.
  - intros E. rewrite <- E. apply (keep_first_NoDup PID Z.eqb Z.eqb_eq).
  - intros H. apply (keep_first_fixed PID Z.eqb Z.eqb_eq); [assumption|].
    intros x _ [].
Qed.

Lemma Selector_fixed_iff_witness :
  let records := [ {| PID := 3; Description := Text (lit "Replace boiler.") |};
                   {| PID := 7; Description := NaN |} ] in
  Selector records = records /\ NoDup (map PID records).
Proof.
  intros records.
  assert (H : NoDup (map PID records)).
  { repeat constructor; simpl; intuition discriminate. }
  split; [|exact H]. apply (proj2 (Selector_fixed_iff records)). exact H.
Defined.

(** X3. A row added at the end of the table changes the selection only when
    its identifier is new, and then it is added at the end of the selection:
    later snapshots of a known project never replace the first one. *)
Theorem Selector_append (records : list project) (r : project) :
  Selector (records ++ [r])
  = if existsb (Z.eqb (PID r)) (map PID records) then Selector records
    else Selector records ++ [r].
Proof.
  rewrite !Selector_keep_first.
  rewrite (keep_first_app PID Z.eqb). rewrite app_nil_r.
  set (kept := keep_first PID Z.eqb [] records).
  assert (E : existsb (Z.eqb (PID r)) (rev (map PID kept))
              = existsb (Z.eqb (PID r)) (map PID records)).
  { destruct (existsb (Z.eqb (PID r)) (map PID records)) eqn:E1.
    - apply (existsb_eqb Z.eqb Z.eqb_eq). rewrite <- in_rev.
      apply (keep_first_keys PID Z.eqb Z.eqb_eq). split; [|intros []].
      now apply (existsb_eqb Z.eqb Z.eqb_eq).
    - destruct (existsb (Z.eqb (PID r)) (rev (map PID kept))) eqn:E2;
        [|reflexivity].
      apply (existsb_eqb Z.eqb Z.eqb_eq) in E2. rewrite <- in_rev in E2.
      apply (keep_first_keys PID Z.eqb Z.eqb_eq) in E2 as [E2 _].
      apply (existsb_eqb Z.eqb Z.eqb_eq) in E2. congruence. }
  simpl. rewrite E.
  destruct (existsb (Z.eqb (PID r)) (map PID records)); [apply app_nil_r | reflexivity].
Qed.

(** X4. The [drop_duplicates()] of cell 11 has no effect on the selection:
    cell 12 run on the table as it was read selects the same rows. *)
Theorem cell_11_redundant (records : list project) :
  map snd (cell_12 (range_index records)) = Selector records.
Proof.
  rewrite Selector_keep_first.
  unfold cell_12, drop_duplicates, range_index.
  set (data := combine (seq 0 (List.length records)) records).
  assert (Hdata : NoDup (map fst data)).
  { unfold data. rewrite range_index_fst. apply seq_NoDup. }
  rewrite drop_duplicates_keep_first.
  unfold PID_column. rewrite keep_first_map. unfold index.
  rewrite map_map. simpl.
  change (map (fun x : nat * project => fst x)) with (@map (nat * project) nat fst).
  fold (index (keep_first (fun a : nat * project => PID (snd a)) Z.eqb [] data)).
  rewrite loc_index; [|assumption|apply (keep_first_labels PID Z.eqb [] data Hdata)].
  rewrite <- (keep_first_map snd PID).
  unfold data. now rewrite range_index_snd.
Qed.

(** ** The normaliser, continued *)

Lemma normalize_plain (s : str) :
  ~ In period s -> normalize (Text s) = [Py.strip s].
Proof.
  intros H. simpl. rewrite split_no_sep_single by assumption.
  destruct s; reflexivity.
Qed.

Lemma normalized_no_period (s : str) :
  ~ In period
       (Py.join (lit " ")
          (map Py.strip (filter Py.nonempty (Py.split period s)))).
Proof.
  intros H. apply join_chars in H as [H|(x & Hx & Hc)].
  - destruct H as [H|[]]. discriminate H.
  - apply in_map_iff in Hx as (f & <- & Hf).
    apply filter_In in Hf as [Hf _]. apply strip_incl in Hc.
    pose proof (split_no_sep period s) as Hs.
    rewrite Forall_forall in Hs. exact (Hs _ Hf Hc).
Qed.

Lemma join_length (sep : str) (l : list str) :
  List.length (Py.join sep l)
  = (List.length (List.concat l) + List.length sep * pred (List.length l))%nat.
Proof.
  induction l as [|x t IH]; [simpl; lia|].
  destruct t as [|y t].
  - simpl. rewrite app_nil_r. lia.
  - rewrite join_cons2. cbn [List.concat]. rewrite !length_app, IH.
    cbn [List.concat List.length pred]. rewrite !length_app. lia.
Qed.

Lemma concat_nonempty (l : list str) :
  List.concat (filter Py.nonempty l) = List.concat l.
Proof.
  induction l as [|x t IH]; [reflexivity|].
  destruct x; simpl; now rewrite IH.
Qed.

Lemma strip_length (s : str) : (List.length (Py.strip s) <= List.length s)%nat.
Proof.
  destruct (strip_spec s) as (l & r & E & _).
  rewrite E at 2. rewrite !length_app. lia.
Qed.

Lemma concat_strip_length (l : list str) :
  (List.length (List.concat (map Py.strip l)) <= List.length (List.concat l))%nat.
Proof.
  induction l as [|x t IH]; [simpl; lia|].
  simpl. rewrite !length_app. pose proof (strip_length x). lia.
Qed.

(** X5. A description without a period is normalised to its text without
    the white space at its ends. *)
Theorem normalize_without_period (s : str) :
  ~ In period s -> normalize (Text s) = [Py.strip s].
Proof. apply normalize_plain. Qed.

Lemma normalize_without_period_witness :
  normalize (Text (lit "  Replace boiler ")) = [lit "Replace boiler"].
Proof.
  apply (normalize_without_period (lit "  Replace boiler ")).
  simpl. unfold period. intuition discriminate.
Defined.

(** X6. The normalised text of a description is made of characters of the
    description, periods excepted, and of spaces, and it is never longer
    than the description. *)
Theorem normalize_within_description (s : str) :
  Forall (fun u =>
            (forall c, In c u -> c = space \/ (In c s /\ c <> period))
            /\ (List.length u <= List.length s)%nat)
         (normalize (Text s)).
Proof.
  simpl. constructor; [|constructor]. split.
  - intros c H. apply join_chars in H as [H|(x & Hx & Hc)].
    + left. destruct H as [H|[]]. now symmetry.
    + right. apply in_map_iff in Hx as (f & <- & Hf).
      apply filter_In in Hf as [Hf _]. apply strip_incl in Hc.
      pose proof (split_no_sep period s) as Hs.
      rewrite Forall_forall in Hs. split.
      * rewrite <- (join_split period s).
        clear Hs. induction (Py.split period s) as [|g t IH]; [destruct Hf|].
        destruct t as [|h t].
        -- destruct Hf as [->|[]]. exact Hc.
        -- rewrite join_cons2. apply in_or_app. destruct Hf as [->|Hf];
             [now left|]. right. apply in_or_app. right. now apply IH.
      * intros ->. exact (Hs _ Hf Hc).
  - rewrite join_length.
    pose proof (concat_strip_length (filter Py.nonempty (Py.split period s))) as H1.
    rewrite concat_nonempty in H1.
    pose proof (filter_length_le Py.nonempty (Py.split period s)) as H2.
    rewrite length_map.
    pose proof (join_length [period] (Py.split period s)) as H3.
    rewrite join_split in H3. simpl List.length in *. lia.
Qed.

(** X7. Normalising is not idempotent, but it settles at the second pass:
    the second pass only trims the text of the first, and every later pass
    gives the text of the second. *)
Theorem normalize_settles (s : str) :
  exists u,
    normalize (Text s) = [u]
    /\ normalize (Text u) = [Py.strip u]
    /\ normalize (Text (Py.strip u)) = [Py.strip u].
Proof.
  eexists. split; [reflexivity|].
  pose proof (normalized_no_period s) as H. split.
  - now apply normalize_plain.
  - rewrite normalize_plain; [now rewrite strip_idempotent|].
    intros Hin. apply H. now apply strip_incl.
Qed.

Example normalize_second_pass :
  normalize (Text (lit "Replace boiler. ")) = [lit "Replace boiler "]
  /\ normalize (Text (lit "Replace boiler ")) = [lit "Replace boiler"].
Proof. split; reflexivity. Qed.

(** ** The write loop, continued *)

Lemma Writer_rows {num : Numbers} (records : list EmbeddingRecord) (old : str) :
  Writer records old
  = (Ok tt,
     header_text
     ++ flat_map (fun r => Csv.row_text [Csv.VInt (identifier r);
                                         Csv.VStr (format_embedding (vector r))])
                 records).
Proof.
  unfold Writer, write_header, write_embedding, Csv.writerow.
  unfold bind at 1. unfold open_w. unfold bind at 1. unfold write at 1.
  now rewrite for_each_write.
Qed.

Lemma for_each_app {A} (l1 l2 : list A) (body : A -> io unit) (file : str) :
  for_each (l1 ++ l2) body file
  = match for_each l1 body file with
    | (Ok _, file') => for_each l2 body file'
    | (Raise e, file') => (Raise e, file')
    end.
Proof.
  revert file. induction l1 as [|x t IH]; intros file; [reflexivity|].
  simpl. unfold bind. destruct (body x file) as [[[]|e] file']; [apply IH | reflexivity].
Qed.

Lemma item0_hd {A} (d : A) (l : list A) : l <> [] -> item0 l = Ok (hd d l).
Proof. destruct l; [contradiction | reflexivity]. Qed.

(** X8. When the encoder returns an embedding for the description of every
    row, cell 14 leaves what the writer leaves for the records made of the
    identifier of each row and of the first embedding returned for it:
    embeddings after the first are not written. *)
Theorem cell_14_writes_embedded {num : Numbers}
    (extract_embeddings : list str -> list (list float32))
    (projects : list project) (old : str) :
  (forall row, In row projects ->
     extract_embeddings (normalize (Description row)) <> []) ->
  cell_14 extract_embeddings projects old
  = Writer (map (embedded extract_embeddings) projects) old.
Proof.
  intros H.
  apply (cell_14_Writer extract_embeddings
           (fun row => hd [] (extract_embeddings (normalize (Description row))))).
  intros row Hr. apply item0_hd. now apply H.
Qed.

Lemma cell_14_writes_embedded_witness :
  let extract := fun desc : list str =>
    map (fun _ => [tenth; one]) desc ++ [[minus_two_and_a_half]] in
  let projects := [ {| PID := 3; Description := Text (lit "Replace boiler.") |};
                    {| PID := 7; Description := NaN |} ] in
  @cell_14 sample_numbers extract projects (lit "old")
  = Writer (map (@embedded sample_numbers extract) projects) (lit "old").
Proof.
  intros extract projects.
  apply (@cell_14_writes_embedded sample_numbers).
  intros row [<-|[<-|[]]]; discriminate.
Defined.

(** X9. When the encoder returns no embedding for a row, cell 14 stops there
    with [IndexError]: the file holds the header and the lines of the rows
    before, as a run on these rows alone leaves it, and nothing of the rows
    after. *)
Theorem cell_14_IndexError {num : Numbers}
    (extract_embeddings : list str -> list (list float32))
    (before after : list project) (row : project) (old : str) :
  (forall r, In r before ->
     extract_embeddings (normalize (Description r)) <> []) ->
  extract_embeddings (normalize (Description row)) = [] ->
  cell_14 extract_embeddings (before ++ row :: after) old
  = (Raise IndexError, snd (cell_14 extract_embeddings before old)).
Proof.
  intros Hb Hrow.
  rewrite (cell_14_Writer extract_embeddings
             (fun r => hd [] (extract_embeddings (normalize (Description r))))
             before old)
    by (intros r Hr; apply item0_hd; now apply Hb).
  rewrite Writer_rows. cbn [snd].
  rewrite cell_14_loop, for_each_app.
  rewrite <- cell_14_loop with (old := old).
  rewrite (cell_14_Writer extract_embeddings
             (fun r => hd [] (extract_embeddings (normalize (Description r))))
             before old)
    by (intros r Hr; apply item0_hd; now apply Hb).
  rewrite Writer_rows. simpl. unfold bind, lift. now rewrite Hrow.
Qed.

Lemma cell_14_IndexError_witness :
  let extract := fun desc : list str =>
    if existsb (Py.str_eqb (lit "_")) desc then []
    else map (fun _ => [tenth; one]) desc in
  @cell_14 sample_numbers extract
    ([ {| PID := 3; Description := Text (lit "Replace boiler.") |} ]
     ++ {| PID := 7; Description := NaN |}
     :: [ {| PID := 9; Description := Text (lit "Pave road") |} ]) (lit "old")
  = (Raise IndexError,
     snd (@cell_14 sample_numbers extract
            [ {| PID := 3; Description := Text (lit "Replace boiler.") |} ]
            (lit "old"))).
Proof.
  intros extract.
  apply (@cell_14_IndexError sample_numbers).
  - intros r [<-|[]]. discriminate.
  - reflexivity.
Defined.

(** ** The file and the tokenizer *)

Lemma special_classify (c : char) :
  Csv.special c = false -> Pd.classify c = Pd.Other.
Proof.
  unfold Csv.special, Pd.classify.
  destruct (c =? comma), (c =? dquote), (c =? CR), (c =? LF);
    simpl; congruence.
Qed.

Lemma needs_quotes_plain (f : str) :
  Csv.needs_quotes f = false -> Forall (fun c => Pd.classify c = Pd.Other) f.
Proof.
  induction f as [|c t IH]; [constructor|].
  simpl. intros H. apply orb_false_iff in H as [Hc Ht].
  constructor; [now apply special_classify | now apply IH].
Qed.

Lemma tokenize_escaped (s fld : str) (line : list str) (rest : str) :
  Pd.tokenize Pd.IN_QUOTED_FIELD fld line
    (flat_map (fun c => if c =? dquote then [dquote; dquote] else [c]) s ++ rest)
  = Pd.tokenize Pd.IN_QUOTED_FIELD (rev s ++ fld) line rest.
Proof.
  revert fld. induction s as [|c t IH]; intros fld; [reflexivity|].
  cbn [flat_map rev]. rewrite <- !app_assoc. cbn [app].
  destruct (N.eqb_spec c dquote) as [->|Hc].
  - cbn [app Pd.tokenize]. change (Pd.classify dquote) with Pd.Quote.
    cbv iota. apply IH.
  - cbn [app Pd.tokenize]. rewrite <- IH.
    pose proof (classify_not_quote c Hc) as Hq.
    destruct (Pd.classify c); try reflexivity. contradiction.
Qed.

(** A field that [writerow] wrote last on its line is read back as it was,
    whatever characters it holds. *)
Lemma tokenize_last_field (f : str) (line : list str) (rest : str) :
  Pd.tokenize Pd.START_FIELD [] line (Csv.field false f ++ [CR; LF] ++ rest)
  = Pd.end_line (rev f) line (Pd.tokenize Pd.START_RECORD [] [] rest).
Proof.
  unfold Csv.field. rewrite andb_false_l, orb_false_r.
  destruct (Csv.needs_quotes f) eqn:E.
  - unfold Csv.quoted. cbn [app Pd.tokenize].
    change (Pd.classify dquote) with Pd.Quote. cbv iota.
    rewrite <- app_assoc, tokenize_escaped. rewrite app_nil_r.
    cbn [app Pd.tokenize]. change (Pd.classify dquote) with Pd.Quote.
    change (Pd.classify CR) with Pd.Cr. change (Pd.classify LF) with Pd.Lf.
    reflexivity.
  - apply needs_quotes_plain in E. destruct f as [|c t].
    + reflexivity.
    + inversion E as [|? ? Hc Ht]; subst.
      cbn [app Pd.tokenize]. rewrite Hc.
      rewrite tokenize_in_field by assumption.
      cbn [Pd.tokenize]. change (Pd.classify CR) with Pd.Cr.
      change (Pd.classify LF) with Pd.Lf. reflexivity.
Qed.

Lemma tokenize_row {num : Numbers} (r : EmbeddingRecord) (rest : str) :
  Pd.tokenize Pd.START_RECORD [] []
    (Csv.row_text [Csv.VInt (identifier r);
                   Csv.VStr (format_embedding (vector r))] ++ rest)
  = rbind (Pd.tokenize Pd.START_RECORD [] [] rest)
          (fun ls => Ok ([Py.str_of_int (identifier r);
                          format_embedding (vector r)] :: ls)).
Proof.
  unfold Csv.row_text. cbn [Csv.alone map Csv.to_str].
  rewrite join_cons2. cbn [Py.join].
  destruct (str_of_int_plain (identifier r)) as [Hne Hid].
  assert (Hs : Forall (fun c => Csv.special c = false)
                      (Py.str_of_int (identifier r))).
  { revert Hid. apply Forall_impl. tauto. }
  assert (Ho : Forall (fun c => Pd.classify c = Pd.Other)
                      (Py.str_of_int (identifier r))).
  { revert Hid. apply Forall_impl. tauto. }
  unfold Csv.field at 1. rewrite andb_false_l, orb_false_r.
  rewrite needs_quotes_false by assumption.
  destruct (Py.str_of_int (identifier r)) as [|c t]; [contradiction|].
  inversion Ho as [|? ? Hc Ht]; subst.
  rewrite <- !app_assoc. cbn [app Pd.tokenize]. rewrite Hc.
  rewrite tokenize_in_field by assumption.
  cbn [Pd.tokenize]. change (Pd.classify comma) with Pd.Delim. cbv iota.
  change (Csv.field false (format_embedding (vector r)) ++ CR :: LF :: rest)
    with (Csv.field false (format_embedding (vector r)) ++ [CR; LF] ++ rest).
  rewrite tokenize_last_field. unfold Pd.end_line.
  change (rev t ++ [c]) with (rev (c :: t)). rewrite !rev_involutive.
  reflexivity.
Qed.

Lemma tokenize_rows {num : Numbers} (records : list EmbeddingRecord) :
  Pd.tokenize Pd.START_RECORD [] []
    (flat_map (fun r => Csv.row_text [Csv.VInt (identifier r);
                                      Csv.VStr (format_embedding (vector r))])
              records)
  = Ok (map (fun r => [Py.str_of_int (identifier r);
                       format_embedding (vector r)]) records).
Proof.
  induction records as [|r t IH]; [reflexivity|].
  cbn [flat_map map]. now rewrite tokenize_row, IH.
Qed.

Lemma written_file_frame {num : Numbers}
    (records : list EmbeddingRecord) (old : str) :
  Pd.tokenize Pd.START_RECORD [] [] (snd (Writer records old))
  = Ok ([lit "PID"; lit "embedding"]
        :: map (fun r => [Py.str_of_int (identifier r);
                          format_embedding (vector r)]) records)
  /\ exists df,
       read_csv (snd (Writer records old)) = Ok df
       /\ columns df = [lit "PID"; lit "embedding"]
       /\ List.length (rows df) = List.length records
       /\ Forall (fun row => List.length row = 2%nat) (rows df).
Proof.
  rewrite Writer_rows. cbn [snd].
  assert (E : Pd.tokenize Pd.START_RECORD [] []
                (header_text
                 ++ flat_map (fun r => Csv.row_text
                                [Csv.VInt (identifier r);
                                 Csv.VStr (format_embedding (vector r))])
                             records)
              = Ok ([lit "PID"; lit "embedding"]
                    :: map (fun r => [Py.str_of_int (identifier r);
                                      format_embedding (vector r)]) records)).
  { now rewrite tokenize_header, tokenize_rows. }
  split; [exact E|].
  unfold read_csv. rewrite E. cbn [rbind].
  set (data := map (fun r => [Py.str_of_int (identifier r);
                              format_embedding (vector r)]) records).
  assert (Hw : match data with
               | [] => List.length [lit "PID"; lit "embedding"]
               | first :: _ =>
                   Nat.max (List.length [lit "PID"; lit "embedding"])
                           (List.length first)
               end = 2%nat).
  { unfold data. destruct records; reflexivity. }
  cbv zeta. rewrite Hw.
  assert (Hlen : existsb (fun l => (2 <? List.length l)%nat) data = false).
  { unfold data. clear. induction records; [reflexivity | exact IHrecords]. }
  rewrite Hlen. eexists. split; [reflexivity|]. cbn [columns rows].
  split; [reflexivity|]. split.
  - rewrite length_map, length_seq. unfold data. apply length_map.
  - apply Forall_map, Forall_forall. intros i _. reflexivity.
Qed.

(** X10. Whatever text the components of the embeddings are given, quote,
    comma and line break included (the null character apart, which the
    model of [csv.writer] leaves out), [read_csv] reads the file the writer
    left without error: each line gives back the two fields that were
    written, the identifier in decimal and the text of the embedding, and
    the frame has the two columns and one row of two values for each
    record. *)
Theorem written_file_is_read {num : Numbers}
    (records : list EmbeddingRecord) (old : str) :
  (forall x, ~ In 0 (repr x)) ->
  Pd.tokenize Pd.START_RECORD [] [] (snd (Writer records old))
  = Ok ([lit "PID"; lit "embedding"]
        :: map (fun r => [Py.str_of_int (identifier r);
                          format_embedding (vector r)]) records)
  /\ exists df,
       read_csv (snd (Writer records old)) = Ok df
       /\ columns df = [lit "PID"; lit "embedding"]
       /\ List.length (rows df) = List.length records
       /\ Forall (fun row => List.length row = 2%nat) (rows df).
Proof. intros _. apply written_file_frame. Qed.

Lemma written_file_is_read_witness :
  exists df,
    read_csv (snd (Writer scenario_records (lit "old"))) = Ok df
    /\ columns df = [lit "PID"; lit "embedding"]
    /\ List.length (rows df) = List.length scenario_records
    /\ Forall (fun row => List.length row = 2%nat) (rows df).
Proof.
  apply (@written_file_is_read sample_numbers scenario_records (lit "old")).
  intros x; destruct x; simpl; intuition discriminate.
Defined.

Lemma str_of_int_no_bracket (z : Z) :
  Forall (fun c => c <> lbracket /\ c <> rbracket) (Py.str_of_int z).
Proof.
  assert (H : forall d, Forall (fun c => c <> lbracket /\ c <> rbracket)
                               (Py.str_of_uint d)).
  { induction d; simpl; constructor; auto; split; discriminate. }
  unfold Py.str_of_int. destruct (Z.to_int z); [apply H|].
  constructor; [split; discriminate | apply H].
Qed.

Lemma field_chars (alone : bool) (f : str) (c : char) :
  In c (Csv.field alone f) -> c = dquote \/ In c f.
Proof.
  unfold Csv.field.
  destruct (Csv.needs_quotes f || alone && negb (Py.nonempty f)); [|auto].
  unfold Csv.quoted. intros [H|H]; [now left|].
  apply in_app_or in H as [H|[H|[]]]; [|now left].
  apply in_flat_map in H as (y & Hy & Hc).
  destruct (N.eqb_spec y dquote) as [->|Hn].
  - left. destruct Hc as [H|[H|[]]]; now symmetry.
  - right. destruct Hc as [<-|[]]. assumption.
Qed.

Lemma remove_char_gone (c : char) (s : str) : ~ In c (Py.remove_char c s).
Proof.
  unfold Py.remove_char. intros H. apply filter_In in H as [_ H].
  now rewrite N.eqb_refl in H.
Qed.

Lemma remove_char_incl (c x : char) (s : str) :
  In x (Py.remove_char c s) -> In x s.
Proof. unfold Py.remove_char. intros H. now apply filter_In in H. Qed.

(** X11. The file the writer leaves holds no bracket, whatever text the
    components are given: the brackets of the list, and any bracket in the
    text of a component, are removed before the line is written. *)
Theorem written_file_no_bracket {num : Numbers}
    (records : list EmbeddingRecord) (old : str) :
  ~ In lbracket (snd (Writer records old))
  /\ ~ In rbracket (snd (Writer records old)).
Proof.
  rewrite Writer_rows. cbn [snd].
  assert (H : forall c, c = lbracket \/ c = rbracket ->
    ~ In c (header_text
            ++ flat_map (fun r => Csv.row_text
                           [Csv.VInt (identifier r);
                            Csv.VStr (format_embedding (vector r))]) records)).
  { intros c Hc Hin. apply in_app_or in Hin as [Hin|Hin].
    - vm_compute in Hin. destruct Hc as [-> | ->]; vm_compute in Hin;
        intuition discriminate.
    - apply in_flat_map in Hin as (r & _ & Hin).
      unfold Csv.row_text in Hin. cbn [Csv.alone map Csv.to_str] in Hin.
      rewrite join_cons2 in Hin. cbn [Py.join] in Hin.
      apply in_app_or in Hin as [Hin|Hin];
        [apply in_app_or in Hin as [Hin|Hin];
          [|apply in_app_or in Hin as [Hin|Hin]]|].
      + apply field_chars in Hin as [->|Hin];
          [destruct Hc; discriminate|].
        pose proof (str_of_int_no_bracket (identifier r)) as Hz.
        rewrite Forall_forall in Hz. destruct (Hz _ Hin). destruct Hc; auto.
      + destruct Hin as [<-|[]]. destruct Hc; discriminate.
      + apply field_chars in Hin as [->|Hin];
          [destruct Hc; discriminate|].
        unfold format_embedding in Hin. destruct Hc as [-> | ->].
        * apply remove_char_incl in Hin. now apply remove_char_gone in Hin.
        * now apply remove_char_gone in Hin.
      + destruct Hin as [<-|[<-|[]]]; destruct Hc; discriminate. }
  split; apply H; auto.
Qed.

(** ** The validation read, continued *)

Lemma getattr_absent {num : Numbers} (cols : list str) (s : list cell)
    (name : str) :
  ~ In name cols -> getattr cols s name = Raise AttributeError.
Proof.
  revert s. induction cols as [|c cols IH]; intros s H; [reflexivity|].
  destruct s as [|v s]; [reflexivity|]. simpl.
  destruct (Py.str_eqb c name) eqn:E.
  - apply str_eqb_spec in E. exfalso. apply H. now left.
  - apply IH. intros Hin. apply H. now right.
Qed.

Lemma rmap_Forall2 {A B} (f : A -> result B) (l : list A) (ys : list B) :
  rmap f l = Ok ys -> Forall2 (fun x y => f x = Ok y) l ys.
Proof.
  revert ys. induction l as [|x t IH]; intros ys.
  - simpl. intros E. injection E as <-. constructor.
  - simpl. destruct (f x) as [y|e] eqn:Ex; [|discriminate]. simpl.
    destruct (rmap f t) as [zs|e] eqn:Et; [|discriminate]. simpl.
    intros E. injection E as <-. constructor; [assumption | now apply IH].
Qed.

Lemma rmap_ValueError {A B} (f : A -> option B) (l : list A) (t : A) :
  In t l -> f t = None ->
  rmap (fun x => match f x with Some y => Ok y | None => Raise ValueError end) l
  = Raise ValueError.
Proof.
  induction l as [|x l IH]; [intros []|].
  intros Hin Ht. simpl. destruct (f x) eqn:Ex.
  - destruct Hin as [->|Hin]; [congruence|].
    simpl. now rewrite IH.
  - reflexivity.
Qed.

(** X12. [convert] fails on a row in three ways: with [AttributeError] when
    the frame has no column [embedding], and when the value of that column
    is not a text (a number or a missing value); with [ValueError] when the
    text has a piece between commas that [float] does not read. *)
Theorem convert_errors {num : Numbers} (cols : list str) (s : list cell) :
  (~ In (lit "embedding") cols -> convert cols s = Raise AttributeError)
  /\ (forall e, getattr cols s (lit "embedding") = Ok e ->
        (forall x, e <> CStr x) -> convert cols s = Raise AttributeError)
  /\ (forall x t, getattr cols s (lit "embedding") = Ok (CStr x) ->
        In t (Py.split comma x) -> float_ t = None ->
        convert cols s = Raise ValueError).
Proof.
  unfold convert. repeat split.
  - intros H. now rewrite getattr_absent.
  - intros e E H. rewrite E. simpl. destruct e; try reflexivity.
    now destruct (H s0).
  - intros x t E Hin Ht. rewrite E. simpl. now apply rmap_ValueError with (t := t).
Qed.

Lemma convert_errors_witness :
  let number : list (@cell sample_numbers) := [CInt 7; CFloat one] in
  let text : list (@cell sample_numbers) := [CInt 7; CStr (lit "1.0, abc")] in
  convert [lit "PID"; lit "vector"] text = Raise AttributeError
  /\ convert [lit "PID"; lit "embedding"] number = Raise AttributeError
  /\ convert [lit "PID"; lit "embedding"] text = Raise ValueError.
Proof.
  intros number text. split; [|split].
  - apply (@convert_errors sample_numbers).
    simpl. intuition discriminate.
  - apply (proj1 (proj2 (@convert_errors sample_numbers
                           [lit "PID"; lit "embedding"] number))
             (@CFloat sample_numbers one)).
    + reflexivity.
    + discriminate.
  - apply (proj2 (proj2 (@convert_errors sample_numbers
                           [lit "PID"; lit "embedding"] text))
             (lit "1.0, abc") (lit " abc")).
    + reflexivity.
    + right. left. reflexivity.
    + reflexivity.
Defined.

Lemma set_rows_shape {num : Numbers} (rs : list (list cell))
    (lists : list (list float64)) :
  Forall (fun row => List.length row = 2%nat) rs ->
  List.length lists = List.length rs ->
  Forall (fun row => exists pid v, row = [pid; CList v])
         (map (fun sv => set_in_row [lit "PID"; lit "embedding"] (fst sv)
                           (lit "embedding") (snd sv))
              (combine rs (map CList lists))).
Proof.
  intros H. revert lists. induction H as [|row t Hrow _ IH]; intros lists Hl;
    [constructor|].
  destruct lists as [|v lists]; [discriminate|].
  cbn [map combine fst snd]. constructor.
  - destruct row as [|a [|b [|c row]]]; try discriminate. now exists a, v.
  - apply IH. simpl in Hl. lia.
Qed.

(** X13. When cell 18 succeeds on a file the writer left, there was a
    record at least, and the frame has the columns [PID] and [embedding],
    one row for each record, and in every row a list of numbers as the
    embedding. (As in X10 the null character is left out of the texts.) *)
Theorem cell_18_shape {num : Numbers}
    (records : list EmbeddingRecord) (old : str) (df : DataFrame) :
  (forall x, ~ In 0 (repr x)) ->
  cell_18 (snd (Writer records old)) = Ok df ->
  records <> []
  /\ columns df = [lit "PID"; lit "embedding"]
  /\ List.length (rows df) = List.length records
  /\ Forall (fun row => exists pid v, row = [pid; CList v]) (rows df).
Proof.
  intros _. unfold cell_18.
  destruct (written_file_frame records old) as (_ & df0 & E & Hc & Hl & Hw).
  rewrite E. cbn [rbind]. unfold apply_convert.
  destruct df0 as [cols0 rows0]. cbn [columns rows] in *. subst cols0.
  destruct rows0 as [|row0 rows0]; [discriminate|].
  destruct (rmap (convert [lit "PID"; lit "embedding"]) (row0 :: rows0))
    as [lists|e] eqn:El; [|discriminate].
  cbn [rbind]. intros Edf. injection Edf as <-.
  apply rmap_Forall2, Forall2_length in El.
  split; [intros ->; discriminate|].
  split; [reflexivity|]. cbn [setitem rows columns]. split.
  - rewrite length_map, length_combine, length_map, <- El, Nat.min_id.
    exact Hl.
  - apply set_rows_shape; [assumption | now symmetry].
Qed.

Lemma cell_18_shape_witness :
  let df : @DataFrame sample_numbers :=
    {| columns := [lit "PID"; lit "embedding"];
       rows := [ [CInt 3; CList [tenth; minus_two_and_a_half]];
                 [CInt 7; CList [one; tenth; one]] ] |} in
  long_records <> []
  /\ columns df = [lit "PID"; lit "embedding"]
  /\ List.length (rows df) = List.length long_records
  /\ Forall (fun row => exists pid v, row = [pid; CList v]) (rows df).
Proof.
  intros df.
  apply (@cell_18_shape sample_numbers long_records [] df).
  - intros x; destruct x; simpl; intuition discriminate.
  - reflexivity.
Defined.

(** ** From the source table to the frame read back *)

Lemma Forall2_map_left {A B C} (P : B -> C -> Prop) (f : A -> B)
    (l : list A) (l' : list C) :
  Forall2 P (map f l) l' -> Forall2 (fun x y => P (f x) y) l l'.
Proof.
  revert l'. induction l as [|x t IH]; intros l' H; inversion H; subst;
    constructor; auto.
Qed.

(** X14. From the table to the frame. Under the conditions of the round
    trip on the numbers, when the table has a row at least, the encoder
    returns for every description a first embedding of two components or
    more and the identifiers are 64-bit integers, the frame cell 18 reads
    from the file of a run has one row for each identifier of the table, in
    the order in which the identifiers first appear, with the identifier
    and a vector close, component for component, to the first embedding of
    the description that the table gives first for that identifier. *)
Theorem pipeline_round_trip {num : Numbers}
    (close : float32 -> float64 -> Prop)
    (extract_embeddings : list str -> list (list float32))
    (records : list project) (old : str) :
  (forall x, numeric_text (repr x)) ->
  (forall x, exists y, float_ (repr x) = Some y /\ close x y) ->
  (forall s, float_ (space :: s) = float_ s) ->
  (forall s, In comma s -> pd_float s = None) ->
  records <> [] ->
  (forall r, In r records ->
     (2 <= List.length (vector (embedded extract_embeddings r)))%nat) ->
  (forall r, In r records -> Pd.int64 (PID r)) ->
  exists lines,
    Reader (pipeline extract_embeddings records old)
    = Ok {| columns := [lit "PID"; lit "embedding"]; rows := lines |}
    /\ Forall2 (fun row line =>
                  exists v, line = [CInt (PID row); CList v]
                            /\ Forall2 close
                                 (vector (embedded extract_embeddings row)) v)
               (Selector records) lines.
Proof.
  intros Hrepr Hfloat Hspace Hpd Hne Hv Hi.
  unfold Reader, pipeline. rewrite Selector_keep_first.
  set (sel := keep_first PID Z.eqb [] records).
  assert (Hsel : forall r, In r sel -> In r records).
  { intros r Hr. now apply (keep_first_incl PID Z.eqb Z.eqb_eq) in Hr. }
  assert (Hsne : sel <> []).
  { unfold sel. destruct records; [contradiction | discriminate]. }
  rewrite (cell_14_Writer extract_embeddings
             (fun row => vector (embedded extract_embeddings row)) sel old).
  - change (map _ sel) with (map (embedded extract_embeddings) sel).
    rewrite Writer_text by assumption. cbn [snd].
    destruct (Reader_written close Hrepr Hfloat Hspace Hpd
                (map (embedded extract_embeddings) sel))
      as (lines & E & H).
    + destruct sel; [contradiction | discriminate].
    + apply Forall_map, Forall_forall. intros r Hr. apply Hv. now apply Hsel.
    + apply Forall_map, Forall_forall. intros r Hr. apply Hi. now apply Hsel.
    + exists lines. split; [assumption|].
      apply Forall2_map_left in H. exact H.
  - intros row Hr. apply item0_hd. intros E.
    specialize (Hv row (Hsel row Hr)). unfold embedded in Hv. cbn [vector] in Hv.
    rewrite E in Hv. simpl in Hv. lia.
Qed.

Lemma pipeline_round_trip_witness :
  let extract := fun desc : list str => map (fun _ => [tenth; one]) desc in
  let records := [ {| PID := 3; Description := Text (lit "Replace boiler.") |};
                   {| PID := 7; Description := NaN |};
                   {| PID := 3; Description := Text (lit "Replace roof.") |} ] in
  exists lines,
    Reader (@pipeline sample_numbers extract records (lit "old"))
    = Ok {| columns := [lit "PID"; lit "embedding"]; rows := lines |}
    /\ Forall2 (fun row line =>
                  exists v, line = [CInt (PID row); CList v]
                            /\ Forall2 eq
                                 (vector (@embedded sample_numbers extract row)) v)
               (Selector records) lines.
Proof.
  intros extract records.
  apply (@pipeline_round_trip sample_numbers eq extract records (lit "old")
           sample_repr_numeric sample_float_repr sample_float_space
           sample_of_str_comma).
  - discriminate.
  - intros r [<-|[<-|[<-|[]]]]; simpl; lia.
  - intros r [<-|[<-|[<-|[]]]]; unfold Pd.int64; simpl; lia.
Defined.

(** ** The labels of the selection *)

Lemma keep_first_after_rows_of {A} (f : A -> project) (seenP : list Z)
    (seenR : list project) (l : list A) :
  (forall r, In r seenR -> In (PID r) seenP) ->
  keep_first (fun a => PID (f a)) Z.eqb seenP (keep_first f project_eqb seenR l)
  = keep_first (fun a => PID (f a)) Z.eqb seenP l.
Proof.
  revert seenP seenR. induction l as [|x t IH]; intros seenP seenR Hinv;
    [reflexivity|].
  simpl. destruct (existsb (project_eqb (f x)) seenR) eqn:ER.
  - apply (existsb_eqb project_eqb project_eqb_spec) in ER.
    apply Hinv in ER. apply (existsb_eqb Z.eqb Z.eqb_eq) in ER.
    rewrite ER. now apply IH.
  - simpl. destruct (existsb (Z.eqb (PID (f x))) seenP) eqn:EP.
    + apply IH. intros r [<-|Hr]; [|now apply Hinv].
      now apply (existsb_eqb Z.eqb Z.eqb_eq).
    + f_equal. apply IH. intros r [<-|Hr]; [now left | right; now apply Hinv].
Qed.

Lemma keep_first_label (seen : list Z) (l : list project) (k i : nat)
    (r : project) :
  In (i, r) (keep_first (fun a : nat * project => PID (snd a)) Z.eqb seen
               (combine (seq k (List.length l)) l)) ->
  i = (k + position (PID r) l)%nat /\ nth_error l (i - k) = Some r.
Proof.
  revert seen k. induction l as [|x t IH]; intros seen k; [intros []|].
  cbn [List.length seq combine keep_first snd].
  assert (Hrest : forall seen',
    In (i, r) (keep_first (fun a : nat * project => PID (snd a)) Z.eqb seen'
                 (combine (seq (S k) (List.length t)) t)) ->
    ~ In (PID r) seen' -> (In (PID x) seen') ->
    i = (k + position (PID r) (x :: t))%nat
    /\ nth_error (x :: t) (i - k) = Some r).
  { intros seen' Hin Hr Hx. destruct (IH _ _ Hin) as [Ei En].
    assert (Hne : PID x <> PID r) by (intros E; apply Hr; now rewrite <- E).
    rewrite position_cons_ne by assumption. split; [lia|].
    replace (i - k)%nat with (S (i - S k)) by lia. exact En. }
  destruct (existsb (Z.eqb (PID x)) seen) eqn:E.
  - intros Hin. apply Hrest with (seen' := seen); [assumption| |].
    + apply (keep_first_incl (fun a : nat * project => PID (snd a)) Z.eqb Z.eqb_eq)
        in Hin as [_ Hin]. exact Hin.
    + now apply (existsb_eqb Z.eqb Z.eqb_eq).
  - intros [Hin|Hin].
    + injection Hin as <- <-. simpl. rewrite Z.eqb_refl.
      split; [lia|]. now rewrite Nat.sub_diag.
    + apply Hrest with (seen' := PID x :: seen); [assumption| |now left].
      apply (keep_first_incl (fun a : nat * project => PID (snd a)) Z.eqb Z.eqb_eq)
        in Hin as [_ Hin]. exact Hin.
Qed.

(** X15. The frame [projects] of cell 12 keeps the row labels of the table:
    a selected row carries the number of the first row of the table that
    has its identifier, and is that row. *)
Theorem projects_labels (records : list project) (i : nat) (r : project) :
  In (i, r) (cell_12 (cell_11 (range_index records))) ->
  i = position (PID r) records /\ nth_error records i = Some r.
Proof.
  unfold cell_12, cell_11, drop_duplicates, range_index.
  set (data := combine (seq 0 (List.length records)) records).
  assert (Hdata : NoDup (map fst data)).
  { unfold data. rewrite range_index_fst. apply seq_NoDup. }
  rewrite !drop_duplicates_keep_first.
  set (all := keep_first snd project_eqb [] data).
  destruct (keep_first_labels (fun r => r) project_eqb [] data Hdata)
    as [Hall _]. fold all in Hall.
  unfold PID_column. rewrite keep_first_map. unfold index.
  rewrite map_map. simpl.
  change (map (fun x : nat * project => fst x)) with (@map (nat * project) nat fst).
  fold (index (keep_first (fun a : nat * project => PID (snd a)) Z.eqb [] all)).
  rewrite loc_index; [|assumption|apply (keep_first_labels PID Z.eqb [] all Hall)].
  unfold all. rewrite (keep_first_after_rows_of snd) by (intros ? []).
  intros Hin. apply keep_first_label in Hin as [E1 E2].
  rewrite Nat.sub_0_r in E2. simpl in E1. auto.
Qed.

Lemma projects_labels_witness :
  let records := [ {| PID := 3; Description := Text (lit "Replace boiler.") |};
                   {| PID := 3; Description := Text (lit "Replace roof.") |};
                   {| PID := 7; Description := NaN |} ] in
  2%nat = position 7 records
  /\ nth_error records 2 = Some {| PID := 7; Description := NaN |}.
Proof.
  intros records.
  apply (projects_labels records 2 {| PID := 7; Description := NaN |}).
  right. left. reflexivity.
Defined.
